(** * MineriaET: the deployment script and the prediction form

    Two programs of the repository are modelled here.

    - [deploy.sh], the bash script that either brings the three containers
      up locally or builds, pushes and deploys them to Cloud Run and
      generates the nginx [default.conf] that ties them together.  The
      script is embedded as a program in a small state-and-exit monad: the
      shell state carries the variables the [EXIT] trap reads, the trace of
      the commands that were run, and the temporary directories that exist.
      Everything the script cannot decide by itself (what [gcloud],
      [docker] and [mktemp] print and how they exit) is read from a
      [World].

    - [web/src/app/page.tsx], the React form.  Its state hooks become a
      record, its [onChange] handlers become transitions on that record and
      [handleSubmit] builds the payload from it. *)

From Stdlib Require Import String Ascii List ZArith Lia Bool Arith DecimalString.
Import ListNotations.
Local Open Scope string_scope.

(** ** A model of the bash features that [deploy.sh] relies on *)

Module Bash.

(** What a run does to the outside: commands started, lines printed,
    files written.  Each constructor is one command of the script. *)
Inductive Event : Type :=
| GcloudConfigGetValueProject
| MktempD
| Echo (line : string)
| DockerComposeUp
| DockerBuild (tag context : string)
| DockerPush (image : string)
| GcloudRunDeploy (service image region : string)
| GcloudRunServicesDescribe (service region : string)
| CatTo (dir file content : string)
| RmRf (dir : string).

(** The part of the environment the script depends on.  A command that
    is captured with [$(...)] yields its standard output (as the
    substitution delivers it, trailing newlines removed) and its exit
    status; the other commands yield their exit status.  Statuses are
    the ones of a process, 0 to 255, and 0 is success. *)
Record World : Type := {
  argv0 : string;
  CLOUD_RUN_REGION : option string;
  gcloud_config_get_value_project : string * nat;
  mktemp_d : string * nat;
  docker_compose_up : nat;
  docker_build : string -> string -> nat;
  docker_push : string -> nat;
  gcloud_run_deploy : string -> string -> string -> nat;
  gcloud_run_services_describe : string -> string -> string * nat
}.

(** The shell's own state.  [clock] counts the commands that have
    completed; [trap_EXIT] tells whether [trap cleanup EXIT] has been
    executed; [tmpdirs] are the directories made by [mktemp -d] that
    still exist. *)
Record Shell : Type := {
  clock : nat;
  trace : list Event;
  NGINX_BUILD_DIR : option string;
  trap_EXIT : bool;
  tmpdirs : list string
}.

Definition boot : Shell :=
  {| clock := 0; trace := []; NGINX_BUILD_DIR := None;
     trap_EXIT := false; tmpdirs := [] |}.

(** A command either returns a value to the rest of the script or makes
    the shell exit with a code. *)
Inductive Res (A : Type) : Type :=
| Ret (a : A)
| Exit (code : nat).
Arguments Ret {A} a.
Arguments Exit {A} code.

Definition Sh (A : Type) : Type := Shell -> Res A * Shell.

Definition ret {A} (a : A) : Sh A := fun s => (Ret a, s).

Definition bind {A B} (m : Sh A) (k : A -> Sh B) : Sh B :=
  fun s =>
    match m s with
    | (Ret a, s') => k a s'
    | (Exit c, s') => (Exit c, s')
    end.

Definition exit {A} (code : nat) : Sh A := fun s => (Exit code, s).

Declare Scope sh_scope.
Delimit Scope sh_scope with sh.
Notation "x <- m ;; k" := (bind m (fun x => k))
  (at level 61, m at next level, right associativity) : sh_scope.
Notation "m ;; k" := (bind m (fun _ => k))
  (at level 61, right associativity) : sh_scope.

(** The exit code of a shell killed by SIGINT: 128 + 2. *)
Definition SIGINT_exit : nat := 130.

Definition remove_dir (d : string) (ds : list string) : list string :=
  filter (fun x => negb (String.eqb x d)) ds.

(** One more command has completed. *)
Definition bump (s : Shell) : Shell :=
  {| clock := S (clock s); trace := trace s;
     NGINX_BUILD_DIR := NGINX_BUILD_DIR s;
     trap_EXIT := trap_EXIT s; tmpdirs := tmpdirs s |}.

(** The trace grows at its end. *)
Definition logged (e : Event) (s : Shell) : Shell :=
  {| clock := clock s; trace := trace s ++ [e];
     NGINX_BUILD_DIR := NGINX_BUILD_DIR s;
     trap_EXIT := trap_EXIT s; tmpdirs := tmpdirs s |}.

Section Primitives.

(** [sigint = Some k]: an interrupt (Ctrl-C, a SIGINT to the shell and
    to the command it runs) is taken when [k] commands have completed and
    the next one is about to start.  bash acts on it between two
    commands: it leaves through the exit path, running the [EXIT] trap if
    one is set, and dies of the signal.  What the signal does to a
    command it kills half-way (a [mktemp] that has made its directory and
    not yet printed its name, an [rm -rf] that has not finished) is not
    modelled, nor is an interrupt that arrives when the last command of
    the run has completed. *)
Variable sigint : option nat.

Definition pending (s : Shell) : bool :=
  match sigint with
  | Some k => Nat.eqb k (clock s)
  | None => false
  end.

(** Start of a command: the pending interrupt, if any, wins. *)
Definition tick : Sh unit :=
  fun s => if pending s then (Exit SIGINT_exit, s) else (Ret tt, bump s).

Definition log (e : Event) : Sh unit :=
  fun s => (Ret tt, logged e s).

(** [set -e]: a simple command that fails ends the script with the
    command's status. *)
Definition errexit (status : nat) : Sh unit :=
  if Nat.eqb status 0 then ret tt else exit status.

(** A simple command run for its effect. *)
Definition command (e : Event) (status : nat) : Sh unit :=
  (tick ;; log e ;; errexit status)%sh.

(** [VAR=$(cmd)]: the assignment has the status of the substitution,
    so [set -e] applies to it. *)
Definition capture (e : Event) (r : string * nat) : Sh string :=
  (tick ;; log e ;; errexit (snd r) ;; ret (fst r))%sh.

(** [VAR=$(cmd 2>/dev/null || echo EMPTY)], with the empty string for
    EMPTY: when [cmd] fails, [echo] adds a newline that the substitution
    strips again, and the list succeeds; the value is what [cmd] printed
    either way. *)
Definition capture_or_echo_empty (e : Event) (r : string * nat)
  : Sh string :=
  (tick ;; log e ;; ret (fst r))%sh.

Definition echo (line : string) : Sh unit :=
  (tick ;; log (Echo line))%sh.

(** [cat > dir/file <<EOF ... EOF] *)
Definition cat_to (dir file content : string) : Sh unit :=
  (tick ;; log (CatTo dir file content))%sh.

(** [NGINX_BUILD_DIR=$(mktemp -d)]: on success the directory that
    [mktemp] names exists from now on. *)
Definition mktemp_into_NGINX_BUILD_DIR (r : string * nat) : Sh unit :=
  (tick ;; log MktempD ;; errexit (snd r) ;;
   fun s =>
     (Ret tt,
      {| clock := clock s; trace := trace s;
         NGINX_BUILD_DIR := Some (fst r);
         trap_EXIT := trap_EXIT s;
         tmpdirs := fst r :: tmpdirs s |}))%sh.

(** [trap cleanup EXIT] *)
Definition trap_cleanup_EXIT : Sh unit :=
  (tick ;;
   fun s =>
     (Ret tt,
      {| clock := clock s; trace := trace s;
         NGINX_BUILD_DIR := NGINX_BUILD_DIR s;
         trap_EXIT := true; tmpdirs := tmpdirs s |}))%sh.

(** [rm -rf $d] *)
Definition rm_rf (d : string) (s : Shell) : Shell :=
  {| clock := clock s; trace := trace s ++ [RmRf d];
     NGINX_BUILD_DIR := NGINX_BUILD_DIR s;
     trap_EXIT := trap_EXIT s; tmpdirs := remove_dir d (tmpdirs s) |}.

End Primitives.

(** What is left of a run once the process is gone. *)
Record Outcome : Type := {
  exit_code : nat;
  effects : list Event;
  leftover : list string
}.

(** The [EXIT] trap of the script is the function [cleanup], which is
    [rm -rf] on the value [NGINX_BUILD_DIR] has when the shell exits.  (With
    the variable unset, [set -u] would stop the trap; the script sets the
    variable before it sets the trap.)  The trap runs to its end: one
    interrupt at most is modelled. *)
Definition at_exit (s : Shell) : Shell :=
  if trap_EXIT s then
    match NGINX_BUILD_DIR s with
    | Some d => rm_rf d s
    | None => s
    end
  else s.

(** Running a script to the end of the process. *)
Definition finish {A} (r : Res A * Shell) : Outcome :=
  let s := at_exit (snd r) in
  {| exit_code := match fst r with Exit c => c | Ret _ => 0 end;
     effects := trace s;
     leftover := tmpdirs s |}.

(** [triple P m Q E]: from a state in [P], the command [m] either returns
    [a] in a state in [Q a] or exits with a code [c] in a state in
    [E c]. *)
Definition triple {A} (P : Shell -> Prop) (m : Sh A)
  (Q : A -> Shell -> Prop) (E : nat -> Shell -> Prop) : Prop :=
  forall s, P s ->
    match m s with
    | (Ret a, s') => Q a s'
    | (Exit c, s') => E c s'
    end.

(** The two assertions of a command that keeps an invariant [I]: it
    returns in a state in [I], or exits in one with a code in [C]. *)
Definition keeping (I : Shell -> Prop) {A} (_ : A) (s : Shell) : Prop :=
  I s.

Definition leaving (I : Shell -> Prop) (C : nat -> Prop)
  (c : nat) (s : Shell) : Prop :=
  I s /\ C c.

End Bash.

(** ** deploy.sh *)

Module DeploySh.
Import Bash.
Local Open Scope sh_scope.

(** One line of text followed by a newline, as a here-document has them. *)
Definition newline : string := String (ascii_of_nat 10) EmptyString.

Fixpoint unlines (ls : list string) : string :=
  match ls with
  | [] => ""
  | l :: ls' => l ++ newline ++ unlines ls'
  end.

(** The here-document written to [default.conf], line by line; [\$host]
    and its like are escaped in the script and reach the file as [$host]. *)
Definition default_conf_lines (API_URL WEB_URL : string) : list string :=
  [ "server {";
    "    listen 8080;";
    "";
    "    # Proxy any request to /api/ to the Cloud Run API service";
    "    location /api/ {";
    "        proxy_pass " ++ API_URL ++ ";";
    "        proxy_set_header Host $host;";
    "        proxy_set_header X-Real-IP $remote_addr;";
    "        proxy_set_header X-Forwarded-For $proxy_add_x_forwarded_for;";
    "    }";
    "";
    "    # Proxy all other requests to the Cloud Run Web service";
    "    location / {";
    "        proxy_pass " ++ WEB_URL ++ ";";
    "        proxy_set_header Host $host;";
    "        proxy_set_header X-Real-IP $remote_addr;";
    "        proxy_set_header X-Forwarded-For $proxy_add_x_forwarded_for;";
    "    }";
    "}" ].

Definition default_conf (API_URL WEB_URL : string) : string :=
  unlines (default_conf_lines API_URL WEB_URL).

(** The here-document written to the nginx [Dockerfile]. *)
Definition nginx_Dockerfile : string :=
  unlines
    [ "# Use the same nginx base image as in your docker-compose";
      "FROM nginx:1.28.0-alpine-slim";
      "";
      "# Copy our generated default.conf into the container";
      "COPY default.conf /etc/nginx/conf.d/default.conf" ].

Section Script.

Variable sigint : option nat.
Variable w : World.

Local Abbreviation echo := (echo sigint).
Local Abbreviation command := (command sigint).
Local Abbreviation capture := (capture sigint).

(** [REGION=${CLOUD_RUN_REGION:-us-central1}]: the default stands in for
    an unset and for an empty variable. *)
Definition REGION : string :=
  match CLOUD_RUN_REGION w with
  | Some r => if String.eqb r "" then "us-central1" else r
  | None => "us-central1"
  end.

Definition usage {A} : Sh A :=
  echo ("Usage: " ++ argv0 w ++ " {local|deploy}") ;;
  echo "  local   - run docker-compose up locally" ;;
  echo "  deploy  - build, push, and deploy to Cloud Run" ;;
  exit 1.

(** [gcloud run deploy NAME --image IMAGE --region REGION --platform managed
    --allow-unauthenticated --quiet] *)
Definition deploy_service (name image : string) : Sh unit :=
  command (GcloudRunDeploy name image REGION)
          (gcloud_run_deploy w name image REGION).

(** [$(gcloud run services describe NAME --platform managed --region REGION
    --format value(status.url))] *)
Definition describe_service (name : string) : Sh string :=
  capture (GcloudRunServicesDescribe name REGION)
          (gcloud_run_services_describe w name REGION).

(** Expansion of [${NGINX_BUILD_DIR}]; under [set -u] an unset variable
    ends the script. *)
Definition read_NGINX_BUILD_DIR : Sh string :=
  fun s =>
    match NGINX_BUILD_DIR s with
    | Some d => (Ret d, s)
    | None => (Exit 1, s)
    end.

(** The [deploy] branch, steps 1 to 7.  [NGINX_BUILD_DIR] is not assigned
    again after the configuration part, so one read serves steps 3 to 5. *)
Definition deploy_mode (PROJECT_ID : string) : Sh unit :=
  let IMAGE_API := "gcr.io/" ++ PROJECT_ID ++ "/api" in
  let IMAGE_WEB := "gcr.io/" ++ PROJECT_ID ++ "/web" in
  let IMAGE_NGINX := "gcr.io/" ++ PROJECT_ID ++ "/nginx" in
  echo "👉 Starting Cloud Run deployment..." ;;
  echo ("    Project: " ++ PROJECT_ID) ;;
  echo ("    Region:  " ++ REGION) ;;
  echo "" ;;
  (* Step 1 *)
  echo ">>> Building API image..." ;;
  command (DockerBuild IMAGE_API "./api") (docker_build w IMAGE_API "./api") ;;
  echo ">>> Pushing API image to Container Registry..." ;;
  command (DockerPush IMAGE_API) (docker_push w IMAGE_API) ;;
  echo ">>> Deploying API to Cloud Run..." ;;
  deploy_service "api" IMAGE_API ;;
  API_URL <- describe_service "api" ;;
  (if String.eqb API_URL "" then
     echo "Error: could not fetch API service URL." ;; exit 1
   else ret tt) ;;
  echo ("    ✔ API deployed at: " ++ API_URL) ;;
  echo "" ;;
  (* Step 2 *)
  echo ">>> Building Web image..." ;;
  command (DockerBuild IMAGE_WEB "./web") (docker_build w IMAGE_WEB "./web") ;;
  echo ">>> Pushing Web image to Container Registry..." ;;
  command (DockerPush IMAGE_WEB) (docker_push w IMAGE_WEB) ;;
  echo ">>> Deploying Web to Cloud Run..." ;;
  deploy_service "web" IMAGE_WEB ;;
  WEB_URL <- describe_service "web" ;;
  (if String.eqb WEB_URL "" then
     echo "Error: could not fetch Web service URL." ;; exit 1
   else ret tt) ;;
  echo ("    ✔ Web deployed at: " ++ WEB_URL) ;;
  echo "" ;;
  (* Step 3 *)
  echo ">>> Generating nginx default.conf for Cloud Run..." ;;
  dir <- read_NGINX_BUILD_DIR ;;
  cat_to sigint dir "default.conf" (default_conf API_URL WEB_URL) ;;
  (* Step 4 *)
  echo (">>> Creating Dockerfile for nginx in " ++ dir ++ "...") ;;
  cat_to sigint dir "Dockerfile" nginx_Dockerfile ;;
  (* Step 5 *)
  echo ">>> Building nginx image..." ;;
  command (DockerBuild IMAGE_NGINX dir) (docker_build w IMAGE_NGINX dir) ;;
  echo ">>> Pushing nginx image to Container Registry..." ;;
  command (DockerPush IMAGE_NGINX) (docker_push w IMAGE_NGINX) ;;
  echo "" ;;
  (* Step 6 *)
  echo ">>> Deploying nginx to Cloud Run..." ;;
  deploy_service "nginx" IMAGE_NGINX ;;
  NGINX_URL <- describe_service "nginx" ;;
  (if String.eqb NGINX_URL "" then
     echo "Error: could not fetch nginx service URL." ;; exit 1
   else ret tt) ;;
  echo ("    ✔ Nginx deployed at: " ++ NGINX_URL) ;;
  echo "" ;;
  (* Step 7 *)
  echo "✅ Deployment complete!" ;;
  echo "Your application is now available at:" ;;
  echo "" ;;
  echo ("    🔗  " ++ NGINX_URL) ;;
  echo "" ;;
  echo ("Requests to /api/ will be forwarded to " ++ API_URL) ;;
  echo ("All other requests will be forwarded to " ++ WEB_URL) ;;
  echo "" ;;
  exit 0.

(** The [local] branch. *)
Definition local_mode : Sh unit :=
  echo "👉 Running in local mode with docker-compose..." ;;
  command DockerComposeUp (docker_compose_up w) ;;
  exit 0.

(** Configuration and helper functions: everything the script does before
    it looks at its arguments.  Returns [PROJECT_ID]. *)
Definition configuration : Sh string :=
  PROJECT_ID <- capture_or_echo_empty sigint GcloudConfigGetValueProject
                  (gcloud_config_get_value_project w) ;;
  (if String.eqb PROJECT_ID "" then
     echo "Error: No GCP project set. Run 'gcloud config set project YOUR_PROJECT_ID', then retry." ;;
     exit 1
   else ret tt) ;;
  mktemp_into_NGINX_BUILD_DIR sigint (mktemp_d w) ;;
  trap_cleanup_EXIT sigint ;;
  ret PROJECT_ID.

(** Main logic: the argument count, then the mode. *)
Definition main_logic (args : list string) (PROJECT_ID : string)
  : Sh unit :=
  (if negb (Nat.eqb (List.length args) 1) then usage else ret tt) ;;
  let MODE := hd "" args in
  if String.eqb MODE "local" then local_mode
  else if String.eqb MODE "deploy" then deploy_mode PROJECT_ID
  else usage.

Definition deploy_sh (args : list string) : Sh unit :=
  PROJECT_ID <- configuration ;;
  main_logic args PROJECT_ID.

End Script.

(** A run of [./deploy.sh args] in world [w], interrupted as [sigint]
    says. *)
Definition exec (sigint : option nat) (args : list string) (w : World)
  : Outcome :=
  finish (deploy_sh sigint w args boot).

(** A run that nothing interrupts. *)
Definition run (args : list string) (w : World) : Outcome :=
  exec None args w.

(** The number of commands that have completed when [mktemp] has returned
    and [trap cleanup EXIT] has not started: [gcloud config] and [mktemp]. *)
Definition between_mktemp_and_trap : nat := 2.

(** *** Reading a run *)

(** The addresses the two describe calls of a run resolve. *)
Definition api_url (w : World) : string :=
  fst (gcloud_run_services_describe w "api" (REGION w)).

Definition web_url (w : World) : string :=
  fst (gcloud_run_services_describe w "web" (REGION w)).

Definition project (w : World) : string :=
  fst (gcloud_config_get_value_project w).

(** The texts a run wrote to a file named [default.conf]. *)
Fixpoint synthesized (t : list Event) : list string :=
  match t with
  | [] => []
  | CatTo _ file content :: t' =>
      if String.eqb file "default.conf"
      then content :: synthesized t'
      else synthesized t'
  | _ :: t' => synthesized t'
  end.

(** Build, push and deploy operations, local or remote. *)
Definition build_push_deploy (e : Event) : bool :=
  match e with
  | DockerBuild _ _ | DockerPush _ | GcloudRunDeploy _ _ _
  | DockerComposeUp => true
  | _ => false
  end.

(** Operations of the Cloud Run path: deploying a service and resolving
    its address. *)
Definition deploy_or_resolve (e : Event) : bool :=
  match e with
  | GcloudRunDeploy _ _ _ | GcloudRunServicesDescribe _ _ => true
  | _ => false
  end.

(** The three lines [usage] prints. *)
Definition usage_text (w : World) : list Event :=
  [ Echo ("Usage: " ++ argv0 w ++ " {local|deploy}");
    Echo "  local   - run docker-compose up locally";
    Echo "  deploy  - build, push, and deploy to Cloud Run" ].

Definition config_error : Event :=
  Echo "Error: No GCP project set. Run 'gcloud config set project YOUR_PROJECT_ID', then retry.".

(** [prints t o]: the events [t] occur in the run, in a row. *)
Definition prints (t : list Event) (o : Outcome) : Prop :=
  exists before after, effects o = (before ++ t ++ after)%list.

(** What [deploy.sh] lets into the trace once the trap is set: a write to
    [default.conf] carries the text for the two addresses the run
    resolved, and neither address is empty. *)
Definition expected (w : World) (e : Event) : Prop :=
  match e with
  | CatTo _ file content =>
      file = "default.conf" ->
      content = default_conf (api_url w) (web_url w)
      /\ api_url w <> "" /\ web_url w <> ""
  | _ => True
  end.

(** The shell between [trap cleanup EXIT] and the exit: the trap is set
    and the directory [mktemp] made is the one the trap will remove. *)
Definition guarded (d : string) (s : Shell) : Prop :=
  trap_EXIT s = true /\ NGINX_BUILD_DIR s = Some d /\ tmpdirs s = [d].

(** The traces of the runs that end before the trap is set. *)
Definition early_traces : list (list Event) :=
  [ [];
    [GcloudConfigGetValueProject];
    [GcloudConfigGetValueProject; config_error];
    [GcloudConfigGetValueProject; MktempD] ].

(** *** Two worlds to run the script in *)

(** A project is configured and every command succeeds; the services get
    addresses of the form [https://NAME-xyz.example]. *)
Definition cloud : World :=
  {| argv0 := "./deploy.sh";
     CLOUD_RUN_REGION := None;
     gcloud_config_get_value_project := ("demo", 0);
     mktemp_d := ("/tmp/tmp.Xq3", 0);
     docker_compose_up := 0;
     docker_build := fun _ _ => 0;
     docker_push := fun _ => 0;
     gcloud_run_deploy := fun _ _ _ => 0;
     gcloud_run_services_describe :=
       fun name _ => ("https://" ++ name ++ "-xyz.example", 0) |}.

(** The same machine with no project set in gcloud: [gcloud config
    get-value project] prints nothing on its standard output. *)
Definition no_project : World :=
  {| argv0 := argv0 cloud;
     CLOUD_RUN_REGION := CLOUD_RUN_REGION cloud;
     gcloud_config_get_value_project := (EmptyString, 0);
     mktemp_d := mktemp_d cloud;
     docker_compose_up := docker_compose_up cloud;
     docker_build := docker_build cloud;
     docker_push := docker_push cloud;
     gcloud_run_deploy := gcloud_run_deploy cloud;
     gcloud_run_services_describe := gcloud_run_services_describe cloud |}.

(** The API service is deployed but its description shows no address. *)
Definition no_api_address : World :=
  {| argv0 := argv0 cloud;
     CLOUD_RUN_REGION := CLOUD_RUN_REGION cloud;
     gcloud_config_get_value_project := gcloud_config_get_value_project cloud;
     mktemp_d := mktemp_d cloud;
     docker_compose_up := docker_compose_up cloud;
     docker_build := docker_build cloud;
     docker_push := docker_push cloud;
     gcloud_run_deploy := gcloud_run_deploy cloud;
     gcloud_run_services_describe :=
       fun name region =>
         if String.eqb name "api" then (EmptyString, 0)
         else gcloud_run_services_describe cloud name region |}.

(** Another project, region and temporary directory, and a build that is
    attempted from another place; the two backends resolve to the same
    addresses as in [cloud]. *)
Definition elsewhere : World :=
  {| argv0 := "/opt/mineria/deploy.sh";
     CLOUD_RUN_REGION := Some "europe-west1";
     gcloud_config_get_value_project := ("mineria-et", 0);
     mktemp_d := ("/var/tmp/tmp.b81", 0);
     docker_compose_up := 0;
     docker_build := fun _ _ => 0;
     docker_push := fun _ => 0;
     gcloud_run_deploy := fun _ _ _ => 0;
     gcloud_run_services_describe :=
       fun name _ => ("https://" ++ name ++ "-xyz.example", 0) |}.

(** The description of the web service shows an address that is more
    than a word of an nginx configuration. *)
Definition spliced_address : string :=
  "http://b; } location /late { proxy_pass http://c".

Definition spliced : World :=
  {| argv0 := argv0 cloud;
     CLOUD_RUN_REGION := CLOUD_RUN_REGION cloud;
     gcloud_config_get_value_project := gcloud_config_get_value_project cloud;
     mktemp_d := mktemp_d cloud;
     docker_compose_up := docker_compose_up cloud;
     docker_build := docker_build cloud;
     docker_push := docker_push cloud;
     gcloud_run_deploy := gcloud_run_deploy cloud;
     gcloud_run_services_describe :=
       fun name region =>
         if String.eqb name "web" then (spliced_address, 0)
         else gcloud_run_services_describe cloud name region |}.

(** *** Reading a configuration document *)





(** *** Reading [default.conf] as nginx does

    nginx splits a configuration into words, [;], [{] and [}].  Between
    two words, white space is skipped and [#] opens a comment that runs to
    the end of the line.  A word ends at white space, [;] or [{]; a [{]
    that follows [$] belongs to the word.  Quoting (a quote or a backslash
    outside of a comment) is left out: a document that uses it has no
    reading here. *)
Inductive Token : Type :=
| Word (word : string)
| Semicolon
| OpenBrace
| CloseBrace.

Definition is_newline (c : ascii) : bool := Ascii.eqb c (ascii_of_nat 10).

Definition is_blank (c : ascii) : bool :=
  Ascii.eqb c " " || Ascii.eqb c (ascii_of_nat 9)
  || Ascii.eqb c (ascii_of_nat 13) || is_newline c.

Definition is_quoting (c : ascii) : bool :=
  Ascii.eqb c (ascii_of_nat 34) || Ascii.eqb c "'"
  || Ascii.eqb c (ascii_of_nat 92).

(** [done] holds the tokens read so far, [word] the word being read (empty
    between two words); [variable]: the last character was [$];
    [comment]: inside a comment. *)
Fixpoint tokens (done : list Token) (word : string)
  (variable comment : bool) (text : string) : option (list Token) :=
  match text with
  | EmptyString =>
      match word with
      | EmptyString => Some done
      | _ => Some (done ++ [Word word])%list
      end
  | String c text' =>
      if comment then tokens done EmptyString false (negb (is_newline c)) text'
      else if is_quoting c then None
      else
        match word with
        | EmptyString =>
            if is_blank c then tokens done EmptyString false false text'
            else if Ascii.eqb c ";" then
              tokens (done ++ [Semicolon]) EmptyString false false text'
            else if Ascii.eqb c "{" then
              tokens (done ++ [OpenBrace]) EmptyString false false text'
            else if Ascii.eqb c "}" then
              tokens (done ++ [CloseBrace]) EmptyString false false text'
            else if Ascii.eqb c "#" then
              tokens done EmptyString false true text'
            else
              tokens done (String c EmptyString) (Ascii.eqb c "$") false text'
        | _ =>
            if Ascii.eqb c "{" && variable then
              tokens done (word ++ String c EmptyString) false false text'
            else if is_blank c then
              tokens (done ++ [Word word]) EmptyString false false text'
            else if Ascii.eqb c ";" then
              tokens (done ++ [Word word; Semicolon]) EmptyString false false
                     text'
            else if Ascii.eqb c "{" then
              tokens (done ++ [Word word; OpenBrace]) EmptyString false false
                     text'
            else
              tokens done (word ++ String c EmptyString) (Ascii.eqb c "$")
                     false text'
        end
  end.

(** The path prefixes of the location blocks among the tokens of a
    document, in order.  A block is opened by a directive, the words
    since the last [;], [{] or [}]; the block of [location [MODIFIER] PREFIX]
    is a location block. *)
Fixpoint locations (directive : list string) (ts : list Token)
  : list string :=
  match ts with
  | [] => []
  | Word word :: ts' => locations (directive ++ [word]) ts'
  | OpenBrace :: ts' =>
      match directive with
      | name :: argument :: arguments =>
          if String.eqb name "location"
          then last (argument :: arguments) EmptyString :: locations [] ts'
          else locations [] ts'
      | _ => locations [] ts'
      end
  | Semicolon :: ts' | CloseBrace :: ts' => locations [] ts'
  end.

(** The path prefixes of the location blocks of a document, in order. *)
Definition location_prefixes (doc : string) : option (list string) :=
  option_map (locations []) (tokens [] EmptyString false false doc).

(** An address that is one plain word of a configuration: it holds no
    white space and none of [;], [{], [}], [#], [$], the quotes and the
    backslash. *)
Definition plain_char (c : ascii) : bool :=
  negb (is_blank c || is_quoting c
        || Ascii.eqb c ";" || Ascii.eqb c "{" || Ascii.eqb c "}"
        || Ascii.eqb c "#" || Ascii.eqb c "$").

Fixpoint plain (s : string) : bool :=
  match s with
  | EmptyString => true
  | String c s' => plain_char c && plain s'
  end.

(** The invariant of a proxy configuration, on the prefixes of its routes
    in order: there is a route, one route exactly is the root, and the
    root comes last. *)
Definition ProxyConfig_invariant (prefixes : list string) : Prop :=
  prefixes <> []
  /\ count_occ string_dec prefixes "/" = 1
  /\ last prefixes EmptyString = "/".

End DeploySh.

(** ** web/src/app/page.tsx *)

Module Page.
Local Open Scope Z_scope.

(** The numbers of this page are the results of [parseInt] and of small
    integer literals: an integer or [NaN].  An integer is kept exact; the
    double that JavaScript holds for one beyond 2^53 is rounded, which
    [Math.min] with a small literal does not see. *)
Inductive number : Type :=
| NaN
| Num (z : Z).

(** [Math.min] and [Math.max] of two arguments: [NaN] if either is. *)
Definition Math_min (a b : number) : number :=
  match a, b with
  | Num x, Num y => Num (Z.min x y)
  | _, _ => NaN
  end.

Definition Math_max (a b : number) : number :=
  match a, b with
  | Num x, Num y => Num (Z.max x y)
  | _, _ => NaN
  end.

(** [parseInt(string)] with no radix, on strings of ASCII characters:
    leading white space is skipped, a sign is read, a [0x] or [0X] prefix
    selects base 16, and the longest run of digits is the value; with no
    digit the result is [NaN]. *)
Definition is_white_space (c : ascii) : bool :=
  let n := nat_of_ascii c in
  ((9 <=? n) && (n <=? 13))%nat || (n =? 32)%nat.

Fixpoint trim_start (s : string) : string :=
  match s with
  | String c s' => if is_white_space c then trim_start s' else s
  | EmptyString => s
  end.

Definition digit_value (c : ascii) : option Z :=
  let n := Z.of_nat (nat_of_ascii c) in
  if (48 <=? n) && (n <=? 57) then Some (n - 48)
  else if (97 <=? n) && (n <=? 122) then Some (n - 87)
  else if (65 <=? n) && (n <=? 90) then Some (n - 55)
  else None.

(** The value of the longest prefix of [s] made of digits of base [R],
    given the value [acc] of the digits read so far, if any. *)
Fixpoint digits (R : Z) (s : string) (acc : option Z) : option Z :=
  match s with
  | String c s' =>
      match digit_value c with
      | Some d =>
          if d <? R
          then digits R s' (Some (match acc with Some a => a | None => 0 end * R + d))
          else acc
      | None => acc
      end
  | EmptyString => acc
  end.

Definition parseInt (input : string) : number :=
  let trimmed := trim_start input in
  let '(sign, unsigned) :=
    match trimmed with
    | String "-" r => (-1, r)
    | String "+" r => (1, r)
    | _ => (1, trimmed)
    end in
  let '(R, body) :=
    match unsigned with
    | String "0" (String "x" r) => (16, r)
    | String "0" (String "X" r) => (16, r)
    | _ => (10, unsigned)
    end in
  match digits R body None with
  | Some n => Num (sign * n)
  | None => NaN
  end.

(** [value || fallback] on strings: the empty string is the falsy one. *)
Definition or_else (value fallback : string) : string :=
  if String.eqb value "" then fallback else value.

(** The state hooks of [Home] that the form reads and writes. *)
Record State : Type := {
  rainTomorrow : bool;
  rainToday : bool;
  rainfall : number;
  humidity3pm : number;
  cloud3pm : number;
  sunshine : number
}.

(** The values given to [useState]. *)
Definition initial : State :=
  {| rainTomorrow := false; rainToday := false;
     rainfall := Num 0; humidity3pm := Num 0;
     cloud3pm := Num 0; sunshine := Num 0 |}.

(** The value every number input's [onChange] passes to its setter:
    [Math.max(0, Math.min(hi, parseInt(e.target.value || "0")))]. *)
Definition clamped (hi : Z) (value : string) : number :=
  Math_max (Num 0) (Math_min (Num hi) (parseInt (or_else value "0"))).

(** A change event on one of the rendered inputs, with [e.target.value]
    or [e.target.checked].  The Rain Tomorrow checkbox sits inside a JSX
    comment and is not rendered. *)
Inductive Change : Type :=
| RainfallInput (value : string)
| Humidity3pmInput (value : string)
| RainTodayInput (checked : bool)
| Cloud3pmInput (value : string)
| SunshineInput (value : string).

Definition onChange (st : State) (e : Change) : State :=
  match e with
  | RainfallInput v =>
      {| rainTomorrow := rainTomorrow st; rainToday := rainToday st;
         rainfall := clamped 371 v; humidity3pm := humidity3pm st;
         cloud3pm := cloud3pm st; sunshine := sunshine st |}
  | Humidity3pmInput v =>
      {| rainTomorrow := rainTomorrow st; rainToday := rainToday st;
         rainfall := rainfall st; humidity3pm := clamped 45 v;
         cloud3pm := cloud3pm st; sunshine := sunshine st |}
  | RainTodayInput b =>
      {| rainTomorrow := rainTomorrow st; rainToday := b;
         rainfall := rainfall st; humidity3pm := humidity3pm st;
         cloud3pm := cloud3pm st; sunshine := sunshine st |}
  | Cloud3pmInput v =>
      {| rainTomorrow := rainTomorrow st; rainToday := rainToday st;
         rainfall := rainfall st; humidity3pm := humidity3pm st;
         cloud3pm := clamped 8 v; sunshine := sunshine st |}
  | SunshineInput v =>
      {| rainTomorrow := rainTomorrow st; rainToday := rainToday st;
         rainfall := rainfall st; humidity3pm := humidity3pm st;
         cloud3pm := cloud3pm st; sunshine := clamped 17 v |}
  end.

(** The state after a sequence of change events, oldest first. *)
Definition after (es : list Change) : State :=
  fold_left onChange es initial.

(** The object [handleSubmit] builds. *)
Record Payload : Type := {
  RainTomorrow : number;
  Rainfall : number;
  Humidity3pm : number;
  RainToday : number;
  Cloud3pm : number;
  Sunshine : number
}.

Definition payload (st : State) : Payload :=
  {| RainTomorrow := if rainTomorrow st then Num 0 else Num 0;
     Rainfall := rainfall st;
     Humidity3pm := humidity3pm st;
     RainToday := if rainToday st then Num 1 else Num 0;
     Cloud3pm := cloud3pm st;
     Sunshine := sunshine st |}.

(** [JSON.stringify(payload)], the body of the POST to [/api/predict]:
    the keys in insertion order, an integer in decimal, [NaN] as [null]. *)
Definition quote : string := String (ascii_of_nat 34) EmptyString.

Definition JSON_number (x : number) : string :=
  match x with
  | NaN => "null"
  | Num z => NilZero.string_of_int (Z.to_int z)
  end.

Definition JSON_member (key : string) (x : number) : string :=
  (quote ++ key ++ quote ++ ":" ++ JSON_number x)%string.

Definition JSON_stringify (p : Payload) : string :=
  ("{" ++ JSON_member "RainTomorrow" (RainTomorrow p) ++ ","
       ++ JSON_member "Rainfall" (Rainfall p) ++ ","
       ++ JSON_member "Humidity3pm" (Humidity3pm p) ++ ","
       ++ JSON_member "RainToday" (RainToday p) ++ ","
       ++ JSON_member "Cloud3pm" (Cloud3pm p) ++ ","
       ++ JSON_member "Sunshine" (Sunshine p) ++ "}")%string.

(** The request body of a submission made after the events [es]. *)
Definition handleSubmit_body (es : list Change) : string :=
  JSON_stringify (payload (after es)).

(** [lo <= x <= hi] for a number; [NaN] is in no range. *)
Definition in_range (lo hi : Z) (x : number) : Prop :=
  match x with
  | Num z => lo <= z <= hi
  | NaN => False
  end.

Definition NaN_or_in_range (hi : Z) (x : number) : Prop :=
  x = NaN \/ in_range 0 hi x.

End Page.

(** ** deploy.sh as a plan *)

(** After the configuration part the script is a straight line: a list of
    steps run in order under [set -e], ended by an [exit].  [Plan] writes
    the three branches of the main logic as such lists and gives lists a
    meaning of their own, with no shell state in it. *)

Module Plan.
Import Bash DeploySh.
Local Open Scope sh_scope.

Inductive Step : Type :=
| Say (line : string)
| Do (e : Event) (status : nat)
| Write (dir file content : string)
| Require (value error : string).

(** A step as the command of the script it stands for; [Require v err] is
    the test for an empty value: it prints [err] and exits with 1. *)
Definition run_step (sigint : option nat) (st : Step) : Sh unit :=
  match st with
  | Say line => echo sigint line
  | Do e status => command sigint e status
  | Write dir file content => cat_to sigint dir file content
  | Require value error =>
      if String.eqb value "" then echo sigint error ;; exit 1 else ret tt
  end.

Fixpoint run_steps (sigint : option nat) (code : nat) (l : list Step)
  : Sh unit :=
  match l with
  | [] => exit code
  | st :: l' => run_step sigint st ;; run_steps sigint code l'
  end.

(** The steps of [usage], of the [local] branch and of the [deploy]
    branch. *)
Definition usage_steps (w : World) : list Step :=
  [ Say ("Usage: " ++ argv0 w ++ " {local|deploy}");
    Say "  local   - run docker-compose up locally";
    Say "  deploy  - build, push, and deploy to Cloud Run" ].

Definition local_steps (w : World) : list Step :=
  [ Say "👉 Running in local mode with docker-compose...";
    Do DockerComposeUp (docker_compose_up w) ].

(** Build, push and deploy one service, and resolve its address. *)
Definition service_steps (w : World) (title name image context : string)
  : list Step :=
  [ Say (">>> Building " ++ title ++ " image...");
    Do (DockerBuild image context) (docker_build w image context);
    Say (">>> Pushing " ++ title ++ " image to Container Registry...");
    Do (DockerPush image) (docker_push w image);
    Say (">>> Deploying " ++ title ++ " to Cloud Run...");
    Do (GcloudRunDeploy name image (REGION w))
       (gcloud_run_deploy w name image (REGION w));
    Do (GcloudRunServicesDescribe name (REGION w))
       (snd (gcloud_run_services_describe w name (REGION w))) ].

Definition nginx_url (w : World) : string :=
  fst (gcloud_run_services_describe w "nginx" (REGION w)).

Definition deploy_steps (w : World) (PROJECT_ID dir : string) : list Step :=
  let IMAGE_API := "gcr.io/" ++ PROJECT_ID ++ "/api" in
  let IMAGE_WEB := "gcr.io/" ++ PROJECT_ID ++ "/web" in
  let IMAGE_NGINX := "gcr.io/" ++ PROJECT_ID ++ "/nginx" in
  ([ Say "👉 Starting Cloud Run deployment...";
     Say ("    Project: " ++ PROJECT_ID);
     Say ("    Region:  " ++ REGION w);
     Say "" ]
   ++ service_steps w "API" "api" IMAGE_API "./api"
   ++ [ Require (api_url w) "Error: could not fetch API service URL.";
        Say ("    ✔ API deployed at: " ++ api_url w);
        Say "" ]
   ++ service_steps w "Web" "web" IMAGE_WEB "./web"
   ++ [ Require (web_url w) "Error: could not fetch Web service URL.";
        Say ("    ✔ Web deployed at: " ++ web_url w);
        Say "";
        Say ">>> Generating nginx default.conf for Cloud Run...";
        Write dir "default.conf" (default_conf (api_url w) (web_url w));
        Say (">>> Creating Dockerfile for nginx in " ++ dir ++ "...");
        Write dir "Dockerfile" nginx_Dockerfile;
        Say ">>> Building nginx image...";
        Do (DockerBuild IMAGE_NGINX dir) (docker_build w IMAGE_NGINX dir);
        Say ">>> Pushing nginx image to Container Registry...";
        Do (DockerPush IMAGE_NGINX) (docker_push w IMAGE_NGINX);
        Say "";
        Say ">>> Deploying nginx to Cloud Run...";
        Do (GcloudRunDeploy "nginx" IMAGE_NGINX (REGION w))
           (gcloud_run_deploy w "nginx" IMAGE_NGINX (REGION w));
        Do (GcloudRunServicesDescribe "nginx" (REGION w))
           (snd (gcloud_run_services_describe w "nginx" (REGION w)));
        Require (nginx_url w) "Error: could not fetch nginx service URL.";
        Say ("    ✔ Nginx deployed at: " ++ nginx_url w);
        Say "";
        Say "✅ Deployment complete!";
        Say "Your application is now available at:";
        Say "";
        Say ("    🔗  " ++ nginx_url w);
        Say "";
        Say ("Requests to /api/ will be forwarded to " ++ api_url w);
        Say ("All other requests will be forwarded to " ++ web_url w);
        Say "" ])%list.

(** The branch the main logic takes, with the code of its final [exit]. *)
Definition main_plan (args : list string) (w : World)
  (PROJECT_ID dir : string) : list Step * nat :=
  if negb (Nat.eqb (List.length args) 1) then (usage_steps w, 1)
  else
    let MODE := hd "" args in
    if String.eqb MODE "local" then (local_steps w, 0)
    else if String.eqb MODE "deploy"
         then (deploy_steps w PROJECT_ID dir, 0)
         else (usage_steps w, 1).

(** What a list of steps does, from the clock alone: the events in order
    and the exit code.  An interrupt that is due when a step starts ends
    the list with 130; a failing command ends it with its status, after its
    event; an empty required value ends it with 1, after the error line. *)
Definition due (sigint : option nat) (clock : nat) : bool :=
  match sigint with
  | Some k => Nat.eqb k clock
  | None => false
  end.

Fixpoint plan_outcome (sigint : option nat) (clock code : nat)
  (l : list Step) : list Event * nat :=
  match l with
  | [] => ([], code)
  | st :: l' =>
      let continue e :=
        let r := plan_outcome sigint (S clock) code l' in
        (e :: fst r, snd r) in
      match st with
      | Say line =>
          if due sigint clock then ([], SIGINT_exit)
          else continue (Echo line)
      | Do e status =>
          if due sigint clock then ([], SIGINT_exit)
          else if Nat.eqb status 0 then continue e else ([e], status)
      | Write dir file content =>
          if due sigint clock then ([], SIGINT_exit)
          else continue (CatTo dir file content)
      | Require value error =>
          if String.eqb value "" then
            if due sigint clock then ([], SIGINT_exit)
            else ([Echo error], 1)
          else plan_outcome sigint clock code l'
      end
  end.

(** A step that lets the list go on. *)
Definition passes (st : Step) : Prop :=
  match st with
  | Do _ status => status = 0
  | Require value _ => value <> ""
  | _ => True
  end.


(** The order the Cloud Run path keeps, as a monitor over a trace: an
    image is pushed after it was built, a service is deployed from an image
    that was pushed, its address is asked for after it was deployed, and an
    image is built from [./api], from [./web] or from a directory that
    holds a [default.conf] and a [Dockerfile] written before. *)
Record Seen : Type := {
  built : list string;
  pushed : list string;
  deployed : list string;
  written : list (string * string)
}.

Definition nothing_seen : Seen :=
  {| built := []; pushed := []; deployed := []; written := [] |}.

Definition allowed (seen : Seen) (e : Event) : Prop :=
  match e with
  | DockerBuild _ context =>
      context = "./api" \/ context = "./web"
      \/ (In (context, "default.conf") (written seen)
          /\ In (context, "Dockerfile") (written seen))
  | DockerPush image => In image (built seen)
  | GcloudRunDeploy _ image _ => In image (pushed seen)
  | GcloudRunServicesDescribe name _ => In name (deployed seen)
  | _ => True
  end.

Definition see (seen : Seen) (e : Event) : Seen :=
  match e with
  | DockerBuild image _ =>
      {| built := image :: built seen; pushed := pushed seen;
         deployed := deployed seen; written := written seen |}
  | DockerPush image =>
      {| built := built seen; pushed := image :: pushed seen;
         deployed := deployed seen; written := written seen |}
  | GcloudRunDeploy name _ _ =>
      {| built := built seen; pushed := pushed seen;
         deployed := name :: deployed seen; written := written seen |}
  | CatTo dir file _ =>
      {| built := built seen; pushed := pushed seen;
         deployed := deployed seen;
         written := (dir, file) :: written seen |}
  | _ => seen
  end.

Fixpoint in_order (seen : Seen) (t : list Event) : Prop :=
  match t with
  | [] => True
  | e :: t' => allowed seen e /\ in_order (see seen e) t'
  end.

(** Every stage of the Cloud Run path goes well: what makes a deploy run
    end with 0. *)
Definition all_stages_succeed (w : World) : Prop :=
  let image name := "gcr.io/" ++ project w ++ "/" ++ name in
  project w <> "" /\ snd (mktemp_d w) = 0
  /\ (docker_build w (image "api") "./api" = 0
      /\ docker_push w (image "api") = 0
      /\ gcloud_run_deploy w "api" (image "api") (REGION w) = 0
      /\ snd (gcloud_run_services_describe w "api" (REGION w)) = 0
      /\ api_url w <> "")
  /\ (docker_build w (image "web") "./web" = 0
      /\ docker_push w (image "web") = 0
      /\ gcloud_run_deploy w "web" (image "web") (REGION w) = 0
      /\ snd (gcloud_run_services_describe w "web" (REGION w)) = 0
      /\ web_url w <> "")
  /\ (docker_build w (image "nginx") (fst (mktemp_d w)) = 0
      /\ docker_push w (image "nginx") = 0
      /\ gcloud_run_deploy w "nginx" (image "nginx") (REGION w) = 0
      /\ snd (gcloud_run_services_describe w "nginx" (REGION w)) = 0
      /\ nginx_url w <> "").

(** What a run may touch on disk: it writes the two files of the nginx
    image into the directory [mktemp] made, and removes that directory and
    no other. *)
Definition within_workspace (w : World) (e : Event) : Prop :=
  match e with
  | RmRf d => d = fst (mktemp_d w) /\ snd (mktemp_d w) = 0
  | CatTo dir file _ =>
      dir = fst (mktemp_d w) /\ snd (mktemp_d w) = 0
      /\ (file = "default.conf" \/ file = "Dockerfile")
  | _ => True
  end.

(** Where a run works: every image is [gcr.io/PROJECT/NAME] for the
    configured project, every Cloud Run call names the region [REGION], and
    a service is deployed from the image of its own name. *)
Definition image_of (w : World) (name : string) : string :=
  "gcr.io/" ++ project w ++ "/" ++ name.

Definition in_project_and_region (w : World) (e : Event) : Prop :=
  match e with
  | DockerBuild image _ | DockerPush image =>
      project w <> "" /\ exists name, image = image_of w name
  | GcloudRunDeploy name image region =>
      project w <> "" /\ image = image_of w name /\ region = REGION w
  | GcloudRunServicesDescribe _ region => region = REGION w
  | _ => True
  end.

(** The exit status the world gives the command behind an event; an
    [echo], a here-document and the cleanup do not fail. *)
Definition status_of (w : World) (e : Event) : nat :=
  match e with
  | MktempD => snd (mktemp_d w)
  | DockerComposeUp => docker_compose_up w
  | DockerBuild tag context => docker_build w tag context
  | DockerPush image => docker_push w image
  | GcloudRunDeploy service image region =>
      gcloud_run_deploy w service image region
  | GcloudRunServicesDescribe service region =>
      snd (gcloud_run_services_describe w service region)
  | _ => 0
  end.

(** Commands that return leave [NGINX_BUILD_DIR] as it is. *)
Definition keeps_dir {A} (m : Sh A) : Prop :=
  forall s a s', m s = (Ret a, s') -> NGINX_BUILD_DIR s' = NGINX_BUILD_DIR s.

(** The event a step stands for; for a test, the error line. *)
Definition step_event (st : Step) : Event :=
  match st with
  | Say line => Echo line
  | Do e _ => e
  | Write dir file content => CatTo dir file content
  | Require _ error => Echo error
  end.

(** When every step passes, the run is the events of the steps that have
    one, in order. *)
Fixpoint events_of (l : list Step) : list Event :=
  match l with
  | [] => []
  | Require _ _ :: l' => events_of l'
  | st :: l' => step_event st :: events_of l'
  end.

(** The monitor on steps. *)
Fixpoint steps_in_order (seen : Seen) (l : list Step) : Prop :=
  match l with
  | [] => True
  | Do e _ :: l' => allowed seen e /\ steps_in_order (see seen e) l'
  | Write dir file content :: l' =>
      steps_in_order (see seen (CatTo dir file content)) l'
  | _ :: l' => steps_in_order seen l'
  end.

(** The world of [cloud], except that the web image does not build. *)
Definition web_build_fails : World :=
  {| argv0 := argv0 cloud;
     CLOUD_RUN_REGION := CLOUD_RUN_REGION cloud;
     gcloud_config_get_value_project := gcloud_config_get_value_project cloud;
     mktemp_d := mktemp_d cloud;
     docker_compose_up := docker_compose_up cloud;
     docker_build :=
       fun _ context => if String.eqb context "./web" then 2 else 0;
     docker_push := docker_push cloud;
     gcloud_run_deploy := gcloud_run_deploy cloud;
     gcloud_run_services_describe := gcloud_run_services_describe cloud |}.

End Plan.

(** ** page.tsx: the rest of the form and of handleSubmit *)

Module Inputs.
Import Page.

(** The last event of a kind in a sequence of change events. *)
Definition last_input {A} (pick : Change -> option A) (es : list Change)
  : option A :=
  fold_left (fun acc e => match pick e with Some v => Some v | None => acc end)
            es None.

Definition rainfall_input (e : Change) : option string :=
  match e with RainfallInput v => Some v | _ => None end.
Definition humidity3pm_input (e : Change) : option string :=
  match e with Humidity3pmInput v => Some v | _ => None end.
Definition cloud3pm_input (e : Change) : option string :=
  match e with Cloud3pmInput v => Some v | _ => None end.
Definition sunshine_input (e : Change) : option string :=
  match e with SunshineInput v => Some v | _ => None end.
Definition rainToday_input (e : Change) : option bool :=
  match e with RainTodayInput b => Some b | _ => None end.

(** What a number field holds after its last input, if any. *)
Definition stored (hi : Z) (last : option string) : number :=
  match last with
  | Some v => clamped hi v
  | None => Num 0
  end.

(** Decimal digits, and what may follow the integer part of a number as a
    number input accepts it: nothing, a fraction or an exponent. *)
Definition is_decimal (c : ascii) : bool :=
  let n := nat_of_ascii c in ((48 <=? n) && (n <=? 57))%nat.

Fixpoint all_decimal (s : string) : bool :=
  match s with
  | EmptyString => true
  | String c s' => is_decimal c && all_decimal s'
  end.

Definition ends_integer_part (rest : string) : Prop :=
  match rest with
  | EmptyString => True
  | String c _ => c = "."%char \/ c = "e"%char \/ c = "E"%char
  end.

(** The text React gives a number input for a stored integer: its decimal
    digits. *)
Definition shown (z : Z) : string := JSON_number (Num z).

(** No [0x] prefix: the character after a leading 0 is not an x. *)
Definition no_hex_prefix (c : ascii) (s : string) : Prop :=
  match s with
  | String x _ => c = "0"%char -> x <> "x"%char /\ x <> "X"%char
  | EmptyString => True
  end.

(** The numbers from 0 to 371, written in decimal and read by the
    handler, come back as they were. *)
Definition reads_back (n : nat) : bool :=
  match parseInt (or_else (shown (Z.of_nat n)) "0") with
  | Num z => Z.eqb z (Z.of_nat n)
  | NaN => false
  end.

End Inputs.

Module Submit.
Import Page.

(** A value as [res.json()] yields it.  A number is kept as its text. *)
#[local] Unset Elimination Schemes.
Inductive Json : Type :=
| JNull
| JBool (b : bool)
| JNumber (literal : string)
| JString (s : string)
| JArray (items : list Json)
| JObject (members : list (string * Json)).
#[local] Set Elimination Schemes.

(** [JSON.parse] keeps the last member of a name. *)
Fixpoint member (name : string) (members : list (string * Json))
  : option Json :=
  match members with
  | [] => None
  | (k, v) :: rest =>
      match member name rest with
      | Some v' => Some v'
      | None => if String.eqb k name then Some v else None
      end
  end.

(** [data.prediction]: reading a property of [null] throws a TypeError; a
    primitive, an array or an object without the member gives
    [undefined]. *)
Inductive Property : Type :=
| Throws
| Undefined
| Value (v : Json).

Definition prediction_of (data : Json) : Property :=
  match data with
  | JNull => Throws
  | JObject members =>
      match member "prediction" members with
      | Some v => Value v
      | None => Undefined
      end
  | _ => Undefined
  end.

(** What [fetch] and [res.json()] come back with. *)
Inductive Body : Type :=
| Unparsable (message : string)
| Parsed (data : Json).

Inductive Fetched : Type :=
| Rejected (message : string)
| Response (status : nat) (statusText : string) (body : Body).

(** [res.ok]: the status is in the range 200 to 299. *)
Definition ok (status : nat) : bool :=
  ((200 <=? status) && (status <=? 299))%nat.

(** The hooks [handleSubmit] writes. *)
Record Ui : Type := {
  toastMessage : string;
  showToast : bool;
  isLoading : bool;
  errorMsg : string
}.

Section HandleSubmit.

(** [(x * 100).toFixed(2)] for the first item of the array, [None] being
    the [undefined] of an empty array: floating point arithmetic and
    formatting, left to the engine.  [null_property_error] is the message
    of the engine's TypeError for a property read on [null]. *)
Variable percent : option Json -> string.
Variable null_property_error : string.

(** The [try] block after [fetch]: the toast of the normal end, or the
    message of what is thrown. *)
Definition attempt (f : Fetched) : string + string :=
  match f with
  | Rejected message => inr message
  | Response status statusText body =>
      if negb (ok status) then
        inr ("API Error: " ++ NilZero.string_of_uint (Nat.to_uint status)
             ++ " " ++ statusText)%string
      else
        match body with
        | Unparsable message => inr message
        | Parsed data =>
            match prediction_of data with
            | Throws => inr null_property_error
            | Value (JArray items) =>
                inl ("Prediction: " ++ percent (hd_error items) ++ " mm")%string
            | _ => inl "Prediction data is not valid."%string
            end
        end
  end.

(** The state after the four setters that open [handleSubmit]. *)
Definition submitting (u : Ui) : Ui :=
  {| toastMessage := ""; showToast := false; isLoading := true;
     errorMsg := "" |}.

(** The state once the promise of [handleSubmit] has settled: the [try]
    block or the [catch] block, then [finally]. *)
Definition settled (f : Fetched) (u : Ui) : Ui :=
  match attempt f with
  | inl toast =>
      {| toastMessage := toast; showToast := true; isLoading := false;
         errorMsg := errorMsg u |}
  | inr message =>
      {| toastMessage := ("Error: " ++ message)%string; showToast := true;
         isLoading := false; errorMsg := message |}
  end.

Definition handleSubmit (f : Fetched) (u : Ui) : Ui :=
  settled f (submitting u).

End HandleSubmit.

End Submit.

(** * Properties *)

(** ** Rules for scripts *)

Section Rules.
Import Bash.
Local Open Scope sh_scope.

Lemma triple_ret {A} (P : Shell -> Prop) (a : A) Q E :
  (forall s, P s -> Q a s) -> triple P (ret a) Q E.
Proof. intros H s Hs; simpl; auto. Qed.

Lemma triple_exit {A} (P : Shell -> Prop) c (Q : A -> Shell -> Prop) E :
  (forall s, P s -> E c s) -> triple P (exit c) Q E.
Proof. intros H s Hs; simpl; auto. Qed.

Lemma triple_bind {A B} P (m : Sh A) (k : A -> Sh B) R Q E :
  triple P m R E ->
  (forall a, triple (R a) (k a) Q E) ->
  triple P (bind m k) Q E.
Proof.
  intros Hm Hk s Hs. unfold bind.
  specialize (Hm s Hs). destruct (m s) as [[a | c] s']; auto.
  apply Hk; assumption.
Qed.

(** A fact that does not depend on the state moves out of the
    precondition. *)
Lemma triple_pure {A} (F : Prop) (P : Shell -> Prop) (m : Sh A) Q E :
  (F -> triple P m Q E) -> triple (fun s => F /\ P s) m Q E.
Proof. intros H s [HF Hs]. apply H; assumption. Qed.

(** The rules of the primitives, for an invariant [I] that the clock does
    not disturb and that admits the events in [ok], and for exit codes in
    [C], which holds every failure. *)
Variable sigint : option nat.
Variable ok : Event -> Prop.
Variable I : Shell -> Prop.
Variable C : nat -> Prop.
Hypothesis I_bump : forall s, I s -> I (bump s).
Hypothesis I_logged : forall e s, ok e -> I s -> I (logged e s).
Hypothesis C_failure : forall c, c <> 0 -> C c.

Local Abbreviation leaving := (leaving I C).
Local Abbreviation keeping := (keeping I).

Lemma rule_tick : triple I (tick sigint) keeping leaving.
Proof.
  intros s Hs. unfold tick. destruct (pending sigint s).
  - split; [assumption | apply C_failure; discriminate].
  - apply I_bump; assumption.
Qed.

Lemma rule_log e : ok e -> triple I (log e) keeping leaving.
Proof. intros He s Hs. apply I_logged; assumption. Qed.

Lemma rule_errexit status : triple I (errexit status) keeping leaving.
Proof.
  intros s Hs. unfold errexit.
  destruct (Nat.eqb_spec status 0); simpl.
  - assumption.
  - split; auto.
Qed.

Lemma rule_exit {A} c (Q : A -> Shell -> Prop) :
  C c -> triple I (exit c) Q leaving.
Proof. intros Hc. apply triple_exit. intros s Hs; split; assumption. Qed.

Lemma rule_seq {A B} (m : Sh A) (k : Sh B) Q :
  triple I m keeping leaving ->
  triple I k Q leaving ->
  triple I (m ;; k) Q leaving.
Proof. intros Hm Hk. eapply triple_bind; [exact Hm | intros a; exact Hk]. Qed.

Lemma rule_command e status :
  ok e -> triple I (command sigint e status) keeping leaving.
Proof.
  intros He. unfold command.
  repeat apply rule_seq; auto using rule_tick, rule_log, rule_errexit.
Qed.

Lemma rule_echo line :
  ok (Echo line) -> triple I (echo sigint line) keeping leaving.
Proof.
  intros He. unfold echo. apply rule_seq; auto using rule_tick, rule_log.
Qed.

Lemma rule_cat_to dir file content :
  ok (CatTo dir file content) ->
  triple I (cat_to sigint dir file content) keeping leaving.
Proof.
  intros He. unfold cat_to. apply rule_seq; auto using rule_tick, rule_log.
Qed.

(** A captured command returns what the world says it prints. *)
Lemma rule_capture e r :
  ok e ->
  triple I (capture sigint e r) (fun a s => a = fst r /\ I s) leaving.
Proof.
  intros He. unfold capture.
  repeat apply rule_seq; auto using rule_tick, rule_log, rule_errexit.
  apply triple_ret. intros s Hs; split; [reflexivity | assumption].
Qed.

End Rules.

(** ** The branches of deploy.sh keep an invariant *)

Section Branches.
Import Bash DeploySh.
Local Open Scope sh_scope.

Variable sigint : option nat.
Variable w : World.
Variable I : Shell -> Prop.
Variable C : nat -> Prop.
Hypothesis I_bump : forall s, I s -> I (bump s).
Hypothesis I_logged : forall e s, expected w e -> I s -> I (logged e s).
Hypothesis C_failure : forall c, c <> 0 -> C c.

Local Abbreviation leaves := (leaving I C).

(** [if b; then m; fi; k] where [m] always exits. *)
Lemma rule_guard (b : bool) (m : Sh unit) {B} (k : Sh B) Q :
  (b = true -> triple I m (fun _ _ => False) leaves) ->
  (b = false -> triple I k Q leaves) ->
  triple I ((if b then m else ret tt) ;; k) Q leaves.
Proof.
  intros Hm Hk. destruct b.
  - apply triple_bind with (R := fun _ _ => False).
    + apply Hm; reflexivity.
    + intros a s [].
  - apply triple_bind with (R := fun _ => I).
    + apply triple_ret; auto.
    + intros a. apply Hk; reflexivity.
Qed.

Lemma rule_read_NGINX_BUILD_DIR :
  triple I read_NGINX_BUILD_DIR (fun _ s => I s) leaves.
Proof.
  intros s Hs. unfold read_NGINX_BUILD_DIR.
  destruct (NGINX_BUILD_DIR s); [assumption | ].
  split; [assumption | apply C_failure; discriminate].
Qed.

Ltac primitive :=
  first [ apply (rule_echo sigint (expected w) I C I_bump I_logged C_failure)
        | apply (rule_command sigint (expected w) I C I_bump I_logged C_failure)
        | apply (rule_cat_to sigint (expected w) I C I_bump I_logged C_failure) ].

Ltac walk :=
  repeat (apply rule_seq;
          [solve [primitive; first [exact Logic.I | discriminate 1]]
          | ]).

Lemma rule_usage {A} (Q : A -> Shell -> Prop) :
  triple I (usage sigint w) Q leaves.
Proof.
  unfold usage. walk. apply rule_exit; auto.
Qed.

Lemma rule_local_mode Q :
  C 0 -> triple I (local_mode sigint w) Q leaves.
Proof.
  intros C0. unfold local_mode. walk. apply rule_exit; auto.
Qed.

(** [VAR=$(gcloud run services describe NAME ...)] followed by the test
    for an empty [VAR]. *)
Ltac resolve_address name :=
  eapply triple_bind;
  [ apply (rule_capture sigint (expected w) I C I_bump I_logged C_failure);
    exact Logic.I
  | intros name; apply triple_pure; intros ?;
    apply rule_guard;
    [ intros _; walk; apply rule_exit; auto
    | intros ?%String.eqb_neq ] ].

Lemma rule_deploy_mode PROJECT_ID Q :
  (api_url w <> "" -> web_url w <> "" -> C 0) ->
  triple I (deploy_mode sigint w PROJECT_ID) Q leaves.
Proof.
  intros C0. unfold deploy_mode, deploy_service, describe_service.
  cbv zeta. walk.
  resolve_address API_URL. walk.
  resolve_address WEB_URL. walk.
  eapply triple_bind; [apply rule_read_NGINX_BUILD_DIR | intros dir].
  apply rule_seq.
  { primitive. intros _. subst API_URL WEB_URL. auto. }
  walk.
  resolve_address NGINX_URL. walk.
  apply rule_exit. subst API_URL WEB_URL. auto.
Qed.

Lemma rule_main_logic args PROJECT_ID Q :
  (args <> ["deploy"] -> C 0) ->
  (api_url w <> "" -> web_url w <> "" -> C 0) ->
  triple I (main_logic sigint w args PROJECT_ID) Q leaves.
Proof.
  intros Clocal Cdeploy. unfold main_logic.
  apply rule_guard; [intros _; apply rule_usage | ].
  intros Hlen. cbv zeta.
  destruct args as [ | MODE [ | ? ? ]]; try discriminate Hlen. simpl hd.
  destruct (String.eqb_spec MODE "local") as [-> | _].
  { apply rule_local_mode. apply Clocal. discriminate. }
  destruct (String.eqb_spec MODE "deploy") as [-> | _].
  - apply rule_deploy_mode. assumption.
  - apply rule_usage.
Qed.

End Branches.

(** ** The shape of every run *)

Section Runs.
Import Bash DeploySh.

Lemma remove_dir_single d : remove_dir d [d] = [].
Proof. unfold remove_dir; simpl. rewrite String.eqb_refl. reflexivity. Qed.

(** The configuration part either hands a guarded shell to the main
    logic, or ends the run before the trap is set. *)
Lemma configuration_boot sigint w :
  match configuration sigint w boot with
  | (Ret p, s) =>
      p = project w /\ project w <> "" /\ snd (mktemp_d w) = 0
      /\ guarded (fst (mktemp_d w)) s
      /\ trace s = [GcloudConfigGetValueProject; MktempD]
      /\ sigint <> Some between_mktemp_and_trap
  | (Exit c, s) =>
      c <> 0 /\ trap_EXIT s = false /\ In (trace s) early_traces
      /\ (tmpdirs s = []
          \/ sigint = Some between_mktemp_and_trap
             /\ tmpdirs s = [fst (mktemp_d w)])
  end.
Proof.
  unfold configuration, capture_or_echo_empty, mktemp_into_NGINX_BUILD_DIR,
    trap_cleanup_EXIT, echo, errexit, tick, log, bind, ret, exit, pending,
    project, early_traces, config_error, guarded, between_mktemp_and_trap,
    SIGINT_exit.
  destruct sigint as [[ | [ | [ | k]]] | ]; simpl;
    destruct (String.eqb_spec (fst (gcloud_config_get_value_project w)) "");
    simpl;
    try destruct (Nat.eqb_spec (snd (mktemp_d w)) 0); simpl;
    repeat split; auto; try discriminate; tauto.
Qed.

Lemma guarded_bump d s : guarded d s -> guarded d (bump s).
Proof. unfold guarded; simpl; auto. Qed.

Lemma guarded_logged d e s : guarded d s -> guarded d (logged e s).
Proof. unfold guarded; simpl; auto. Qed.

(** A run either ends before the trap is set, having done no more than
    one of [early_traces], or it ends under the trap: then the directory
    is gone, every event is an expected one, and a [deploy] run that
    exits with 0 has resolved two non-empty addresses. *)
Lemma exec_cases sigint args w :
  let o := exec sigint args w in
  (exit_code o <> 0 /\ In (effects o) early_traces
   /\ (leftover o = []
       \/ sigint = Some between_mktemp_and_trap
          /\ leftover o = [fst (mktemp_d w)]))
  \/ (project w <> "" /\ snd (mktemp_d w) = 0
      /\ sigint <> Some between_mktemp_and_trap
      /\ Forall (expected w) (effects o) /\ leftover o = []
      /\ (args = ["deploy"] -> exit_code o = 0 ->
          api_url w <> "" /\ web_url w <> "")).
Proof.
  unfold exec, deploy_sh, bind.
  pose proof (configuration_boot sigint w) as Hcfg.
  destruct (configuration sigint w boot) as [[p | c] s].
  - right. destruct Hcfg as (-> & Hp & Hm & Hg & Ht & Hsig).
    set (d := fst (mktemp_d w)) in *.
    pose (Inv := fun s => guarded d s /\ Forall (expected w) (trace s)).
    pose (Code := fun c => args = ["deploy"] -> c = 0 ->
                           api_url w <> "" /\ web_url w <> "").
    assert (Hrun : triple Inv (main_logic sigint w args (project w))
                     (fun _ _ => False) (leaving Inv Code)).
    { apply rule_main_logic; unfold Inv, Code.
      - intros s0 [? ?]; split; [apply guarded_bump | ]; assumption.
      - intros e s0 He [? ?]; split; [apply guarded_logged; assumption | ].
        simpl. apply Forall_app; split; [assumption | ].
        constructor; [assumption | constructor].
      - intros c Hc _ Hc0; contradiction.
      - intros Hargs Hd; contradiction.
      - intros Ha Hw _ _; split; assumption. }
    assert (Hs : Inv s).
    { split; [assumption | ]. rewrite Ht. repeat constructor. }
    specialize (Hrun s Hs).
    destruct (main_logic sigint w args (project w) s) as [[[] | c] s'];
      [contradiction | ].
    destruct Hrun as [[(Htrap & Hdir & Htmp) Hall] Hc].
    unfold finish, at_exit; simpl. rewrite Htrap, Hdir; simpl.
    rewrite Htmp, remove_dir_single.
    repeat split; auto.
    + apply Forall_app; split; [assumption | repeat constructor].
    + apply Hc; assumption.
    + apply Hc; assumption.
  - left. destruct Hcfg as (Hc & Htrap & Ht & Hd).
    unfold finish, at_exit; simpl. rewrite Htrap. auto.
Qed.

(** Every text written to [default.conf] under [expected] events is the
    text for the resolved addresses, and these are not empty. *)
Lemma synthesized_expected w t :
  Forall (expected w) t ->
  forall c, In c (synthesized t) ->
    c = default_conf (api_url w) (web_url w)
    /\ api_url w <> "" /\ web_url w <> "".
Proof.
  induction 1 as [ | e t He Ht IH]; simpl; [contradiction | ].
  destruct e; auto.
  destruct (String.eqb_spec file "default.conf"); auto.
  intros c [<- | Hc]; auto.
Qed.

Lemma synthesized_early t : In t early_traces -> synthesized t = [].
Proof.
  unfold early_traces; simpl.
  intros [<- | [<- | [<- | [<- | []]]]]; reflexivity.
Qed.

(** Whatever a run wrote to [default.conf], it wrote the text for its two
    resolved, non-empty addresses. *)
Lemma exec_synthesized sigint args w c :
  In c (synthesized (effects (exec sigint args w))) ->
  c = default_conf (api_url w) (web_url w)
  /\ api_url w <> "" /\ web_url w <> "".
Proof.
  destruct (exec_cases sigint args w) as [(_ & Ht & _) | (_ & _ & _ & Hall & _)].
  - rewrite (synthesized_early _ Ht). contradiction.
  - apply synthesized_expected; assumption.
Qed.

End Runs.

(** ** Runs that nothing interrupts *)

Section Uninterrupted.
Import Bash DeploySh.

(** With no project set, the configuration part reports it and exits. *)
Lemma configuration_no_project w :
  project w = "" ->
  configuration None w boot =
    (Exit 1,
     {| clock := 2;
        trace := [GcloudConfigGetValueProject; config_error];
        NGINX_BUILD_DIR := None; trap_EXIT := false; tmpdirs := [] |}).
Proof.
  unfold project, configuration, capture_or_echo_empty, echo, tick, log,
    bind, ret, exit; simpl.
  intros ->. reflexivity.
Qed.

(** With a project set and a directory made, the main logic starts under
    the trap. *)
Lemma configuration_ready w :
  project w <> "" -> snd (mktemp_d w) = 0 ->
  configuration None w boot =
    (Ret (project w),
     {| clock := 3;
        trace := [GcloudConfigGetValueProject; MktempD];
        NGINX_BUILD_DIR := Some (fst (mktemp_d w));
        trap_EXIT := true; tmpdirs := [fst (mktemp_d w)] |}).
Proof.
  unfold project, configuration, capture_or_echo_empty,
    mktemp_into_NGINX_BUILD_DIR, trap_cleanup_EXIT, errexit, echo, tick, log,
    bind, ret, exit; simpl.
  intros Hp%String.eqb_neq ->. rewrite Hp. reflexivity.
Qed.

(** What follows a call of [usage] does not run. *)
Lemma usage_bind w {A B} (k : A -> Sh B) s :
  bind (usage None w) k s = usage None w s.
Proof. reflexivity. Qed.

(** [usage] under the trap: three lines, exit 1, and the cleanup. *)
Lemma usage_outcome w s :
  trap_EXIT s = true ->
  finish (@usage None w unit s) =
    {| exit_code := 1;
       effects := trace (at_exit (fold_left (fun s e => logged e s)
                                            (usage_text w) s));
       leftover := tmpdirs (at_exit s) |}.
Proof.
  intros Htrap.
  unfold usage, echo, tick, log, bind, ret, exit, finish, at_exit; simpl.
  rewrite Htrap. destruct (NGINX_BUILD_DIR s); reflexivity.
Qed.

End Uninterrupted.

(** ** The claims about deploy.sh *)

Section DeployClaims.
Import Bash DeploySh.

(** Three runs, to read the model by. *)
Example deploy_in_cloud :
  let o := run ["deploy"] cloud in
  exit_code o = 0
  /\ synthesized (effects o)
     = [default_conf "https://api-xyz.example" "https://web-xyz.example"]
  /\ last (effects o) MktempD = RmRf "/tmp/tmp.Xq3"
  /\ leftover o = [].
Proof. vm_compute. repeat split. Qed.

Example local_in_cloud :
  run ["local"] cloud =
    {| exit_code := 0;
       effects := [ GcloudConfigGetValueProject; MktempD;
                    Echo "👉 Running in local mode with docker-compose...";
                    DockerComposeUp; RmRf "/tmp/tmp.Xq3" ];
       leftover := [] |}.
Proof. reflexivity. Qed.

Example deploy_without_api_address :
  let o := run ["deploy"] no_api_address in
  exit_code o = 1
  /\ In (Echo "Error: could not fetch API service URL.") (effects o)
  /\ In (DockerPush "gcr.io/demo/api") (effects o)
  /\ ~ In (DockerBuild "gcr.io/demo/web" "./web") (effects o).
Proof.
  vm_compute. split; [reflexivity | ]. split; [tauto | ]. split; [tauto | ].
  intros H. repeat (destruct H as [H | H]; [discriminate H | ]). exact H.
Qed.

(** C1.  In a deploy run, when the address of [api] or of [web] comes back
    empty, the process exits with a code that is not 0 and nothing has
    been written to [default.conf]: the synthesis step has not run.  This
    holds whether or not the run is interrupted. *)
Theorem empty_address_aborts_before_synthesis sigint w :
  api_url w = "" \/ web_url w = "" ->
  let o := exec sigint ["deploy"] w in
  exit_code o <> 0 /\ synthesized (effects o) = [].
Proof.
  intros Hempty o; subst o.
  destruct (exec_cases sigint ["deploy"] w)
    as [(Hc & Ht & _) | (_ & _ & _ & Hall & _ & Hok)].
  - split; [assumption | apply synthesized_early; assumption].
  - split.
    + intros Hc. destruct (Hok eq_refl Hc) as [Ha Hw]. tauto.
    + destruct (synthesized _) as [ | c l] eqn:Hs; [reflexivity | ].
      destruct (synthesized_expected w _ Hall c) as (_ & Ha & Hw).
      * rewrite Hs; left; reflexivity.
      * tauto.
Qed.

Lemma empty_address_aborts_before_synthesis_witness :
  (api_url no_api_address = "" \/ web_url no_api_address = "")
  /\ exit_code (exec None ["deploy"] no_api_address) <> 0
  /\ synthesized (effects (exec None ["deploy"] no_api_address)) = [].
Proof.
  split; [left; reflexivity | ].
  apply (empty_address_aborts_before_synthesis None no_api_address).
  left; reflexivity.
Defined.




(** C4.  With no project set (gcloud prints an empty project), a run that
    nothing interrupts prints the configuration error and exits with 1
    after the lookup alone; and, interrupted or not, no build, push or
    deploy operation is among its effects. *)
Theorem missing_project_is_a_configuration_error args w :
  project w = "" ->
  run args w =
    {| exit_code := 1;
       effects := [GcloudConfigGetValueProject; config_error];
       leftover := [] |}
  /\ forall sigint e,
       In e (effects (exec sigint args w)) -> build_push_deploy e = false.
Proof.
  intros Hp. split.
  - unfold run, exec, deploy_sh, bind.
    rewrite (configuration_no_project w Hp). reflexivity.
  - intros sigint e He.
    destruct (exec_cases sigint args w) as [(_ & Ht & _) | (Hne & _)];
      [ | contradiction].
    unfold early_traces, In in Ht.
    destruct Ht as [Ht | [Ht | [Ht | [Ht | []]]]];
      rewrite <- Ht in He; simpl in He;
      repeat (destruct He as [<- | He]; [reflexivity | ]); contradiction.
Qed.

Lemma missing_project_is_a_configuration_error_witness :
  project no_project = ""
  /\ exit_code (run ["deploy"] no_project) = 1
  /\ effects (run ["deploy"] no_project) =
       [GcloudConfigGetValueProject; config_error].
Proof.
  split; [reflexivity | ].
  pose proof (missing_project_is_a_configuration_error
                ["deploy"] no_project eq_refl) as [H _].
  rewrite H. split; reflexivity.
Defined.

(** Past the configuration part the argument check does its work: when a
    project is set and [mktemp] has made its directory, arguments that are
    not exactly [local] or exactly [deploy] make the run print the three
    lines of the usage text, remove the directory and exit with 1. *)
Lemma usage_on_bad_arguments args w :
  args <> ["local"] -> args <> ["deploy"] ->
  project w <> "" -> snd (mktemp_d w) = 0 ->
  run args w =
    {| exit_code := 1;
       effects := ([GcloudConfigGetValueProject; MktempD] ++ usage_text w
                   ++ [RmRf (fst (mktemp_d w))])%list;
       leftover := [] |}
  /\ prints (usage_text w) (run args w).
Proof.
  intros Hlocal Hdeploy Hp Hm.
  assert (Hrun : run args w =
    {| exit_code := 1;
       effects := ([GcloudConfigGetValueProject; MktempD] ++ usage_text w
                   ++ [RmRf (fst (mktemp_d w))])%list;
       leftover := [] |}).
  { unfold run, exec, deploy_sh, bind.
    rewrite (configuration_ready w Hp Hm).
    unfold main_logic.
    destruct args as [ | MODE [ | second rest]]; simpl negb; cbv iota.
    - rewrite usage_bind, usage_outcome by reflexivity. simpl.
      rewrite String.eqb_refl. reflexivity.
    - unfold bind at 1, ret, hd.
      destruct (String.eqb_spec MODE "local") as [-> | _];
        [contradiction Hlocal; reflexivity | ].
      destruct (String.eqb_spec MODE "deploy") as [-> | _];
        [contradiction Hdeploy; reflexivity | ].
      rewrite usage_outcome by reflexivity. simpl.
      rewrite String.eqb_refl. reflexivity.
    - rewrite usage_bind, usage_outcome by reflexivity. simpl.
      rewrite String.eqb_refl. reflexivity. }
  split; [exact Hrun | ].
  rewrite Hrun.
  exists [GcloudConfigGetValueProject; MktempD], [RmRf (fst (mktemp_d w))].
  reflexivity.
Qed.

Lemma usage_on_bad_arguments_witness :
  (["deploy"; "now"] <> ["local"] /\ ["deploy"; "now"] <> ["deploy"]
   /\ project cloud <> "" /\ snd (mktemp_d cloud) = 0)
  /\ exit_code (run ["deploy"; "now"] cloud) = 1
  /\ prints (usage_text cloud) (run ["deploy"; "now"] cloud).
Proof.
  assert (H1 : ["deploy"; "now"] <> ["local"]) by discriminate.
  assert (H2 : ["deploy"; "now"] <> ["deploy"]) by discriminate.
  assert (H3 : project cloud <> "") by discriminate.
  assert (H4 : snd (mktemp_d cloud) = 0) by reflexivity.
  split; [auto | ].
  destruct (usage_on_bad_arguments ["deploy"; "now"] cloud H1 H2 H3 H4)
    as [Hrun Hprints].
  split; [rewrite Hrun; reflexivity | exact Hprints].
Defined.

(** C7, at the failing input.  [./deploy.sh] with no argument on a
    machine with no project set in gcloud never reaches the argument
    check: the run is the project lookup and the configuration error,
    with exit code 1, and the usage text is not printed. *)
Theorem no_usage_without_project :
  run [] no_project =
    {| exit_code := 1;
       effects := [GcloudConfigGetValueProject; config_error];
       leftover := [] |}
  /\ ~ prints (usage_text no_project) (run [] no_project).
Proof.
  split; [reflexivity | ].
  intros (before & after & H). simpl in H.
  destruct before as [ | e1 [ | e2 [ | e3 before]]]; simpl in H;
    discriminate H.
Qed.

(** In local mode the Cloud Run path is never taken: no service is
    deployed and no address is resolved, interrupted or not. *)
Lemma local_mode_never_deploys sigint w e :
  In e (effects (exec sigint ["local"] w)) -> deploy_or_resolve e = false.
Proof.
  unfold exec, deploy_sh, bind.
  pose proof (configuration_boot sigint w) as Hcfg.
  destruct (configuration sigint w boot) as [[p | c] s].
  - destruct Hcfg as (_ & _ & _ & (Htrap & Hdir & _) & Ht & _).
    unfold main_logic, local_mode, command, echo, errexit, tick, log, bind,
      ret, exit, finish, at_exit; simpl.
    destruct (pending sigint s); simpl;
      [ | destruct (pending sigint _); simpl;
          [ | destruct (Nat.eqb (docker_compose_up w) 0); simpl ] ];
      rewrite Htrap, Hdir; simpl; rewrite Ht; simpl; intros He;
      repeat (destruct He as [<- | He]; [reflexivity | ]); contradiction.
  - destruct Hcfg as (_ & Htrap & Ht & _).
    unfold finish, at_exit; simpl. rewrite Htrap. intros He.
    unfold early_traces, In in Ht.
    destruct Ht as [Ht | [Ht | [Ht | [Ht | []]]]];
      rewrite <- Ht in He; simpl in He;
      repeat (destruct He as [<- | He]; [reflexivity | ]); contradiction.
Qed.

(** C8, at the failing input.  [./deploy.sh local] on a machine with no
    project set in gcloud runs the project lookup, prints the
    configuration error and exits with 1; [docker-compose up] is not
    run. *)
Theorem local_mode_needs_a_project :
  run ["local"] no_project =
    {| exit_code := 1;
       effects := [GcloudConfigGetValueProject; config_error];
       leftover := [] |}.
Proof. reflexivity. Qed.

(** C6.  Two runs that resolve the same two addresses write the same
    text to [default.conf], byte for byte, whatever else differs between
    them: project, region, temporary directory, arguments, the outcome of
    later stages or an interrupt.  (The listen port and the two path
    prefixes are constants of the script.) *)
Theorem synthesis_is_deterministic sigint1 sigint2 args1 args2 w1 w2 c1 c2 :
  api_url w1 = api_url w2 -> web_url w1 = web_url w2 ->
  In c1 (synthesized (effects (exec sigint1 args1 w1))) ->
  In c2 (synthesized (effects (exec sigint2 args2 w2))) ->
  c1 = c2.
Proof.
  intros Ha Hw H1 H2.
  apply exec_synthesized in H1 as [-> _].
  apply exec_synthesized in H2 as [-> _].
  rewrite Ha, Hw. reflexivity.
Qed.

Lemma synthesis_is_deterministic_witness :
  (api_url cloud = api_url elsewhere /\ web_url cloud = web_url elsewhere)
  /\ In (default_conf (api_url cloud) (web_url cloud))
        (synthesized (effects (exec None ["deploy"] cloud)))
  /\ In (default_conf (api_url elsewhere) (web_url elsewhere))
        (synthesized (effects (exec (Some 40) ["deploy"] elsewhere)))
  /\ default_conf (api_url cloud) (web_url cloud)
     = default_conf (api_url elsewhere) (web_url elsewhere).
Proof.
  assert (H1 : In (default_conf (api_url cloud) (web_url cloud))
                 (synthesized (effects (exec None ["deploy"] cloud))))
    by (vm_compute; left; reflexivity).
  assert (H2 : In (default_conf (api_url elsewhere) (web_url elsewhere))
                 (synthesized (effects (exec (Some 40) ["deploy"] elsewhere))))
    by (vm_compute; left; reflexivity).
  split; [split; reflexivity | ].
  split; [exact H1 | ].
  split; [exact H2 | ].
  exact (synthesis_is_deterministic None (Some 40) ["deploy"] ["deploy"]
           cloud elsewhere _ _ eq_refl eq_refl H1 H2).
Defined.

End DeployClaims.

(** ** The generated default.conf *)

Section Document.
Import Bash DeploySh.

Lemma append_assoc (a b c : string) : (a ++ b) ++ c = a ++ (b ++ c).
Proof. induction a as [ | x a IH]; simpl; [ | rewrite IH]; reflexivity. Qed.


Lemma append_empty (a : string) : a ++ EmptyString = a.
Proof. induction a as [ | x a IH]; simpl; [ | rewrite IH]; reflexivity. Qed.

(** Reading a plain word: its characters join the word being read. *)
Lemma tokens_plain A done word rest :
  plain A = true ->
  tokens done word false false (A ++ rest)
  = tokens done (word ++ A) false false rest.
Proof.
  revert word.
  induction A as [ | c A IH]; intros word HA.
  - rewrite append_empty. reflexivity.
  - cbn [plain] in HA. apply andb_prop in HA as [Hc HA].
    unfold plain_char in Hc. apply negb_true_iff in Hc.
    do 6 (apply orb_false_elim in Hc as [Hc ?]).
    cbn [append tokens].
    replace (word ++ String c A) with ((word ++ String c EmptyString) ++ A)
      by (rewrite append_assoc; reflexivity).
    destruct word as [ | x word].
    + repeat match goal with H : _ = false |- _ => rewrite H; clear H end.
      cbn [andb orb]. exact (IH (String c EmptyString) HA).
    + repeat match goal with H : _ = false |- _ => rewrite H; clear H end.
      cbn [andb orb]. apply (IH _ HA).
Qed.


(** The script splices an address as it comes.  When both addresses are
    plain words, the location blocks nginx reads from [default.conf] are
    those of the here-document. *)
Lemma location_prefixes_default_conf A B :
  plain A = true -> plain B = true ->
  location_prefixes (default_conf A B) = Some ["/api/"; "/"].
Proof.
  intros HA HB. unfold location_prefixes, default_conf, default_conf_lines.
  unfold newline. cbn [unlines]. rewrite !append_assoc. cbn [append].
  cbn. rewrite (tokens_plain A _ _ _ HA). cbn [append].
  destruct A as [ | a A]; cbn;
    rewrite (tokens_plain B _ _ _ HB); cbn [append];
    destruct B as [ | b B]; reflexivity.
Qed.

(** C5, as the code has it.  When the two resolved addresses are plain
    words of an nginx configuration (no white space, [;], [{], [}], [#],
    [$], quote or backslash), the text of any [default.conf] a run writes,
    read as nginx reads it, has the location blocks [/api/] and [/], in
    this order: the route sequence is not empty, one route exactly is the
    root, and the root is the last block. *)
Theorem emitted_configuration_keeps_the_invariant sigint args w c :
  In c (synthesized (effects (exec sigint args w))) ->
  plain (api_url w) = true -> plain (web_url w) = true ->
  exists prefixes,
    location_prefixes c = Some prefixes
    /\ prefixes = ["/api/"; "/"]
    /\ ProxyConfig_invariant prefixes.
Proof.
  intros Hc Ha Hw.
  apply exec_synthesized in Hc as [-> _].
  exists ["/api/"; "/"].
  split; [exact (location_prefixes_default_conf _ _ Ha Hw) | ].
  split; [reflexivity | ].
  unfold ProxyConfig_invariant.
  split; [discriminate | ]. split; [ | reflexivity].
  simpl. destruct (string_dec "/api/" "/"); [discriminate | ].
  destruct (string_dec "/" "/"); [reflexivity | congruence].
Qed.

Lemma emitted_configuration_keeps_the_invariant_witness :
  In (default_conf (api_url cloud) (web_url cloud))
     (synthesized (effects (run ["deploy"] cloud)))
  /\ plain (api_url cloud) = true
  /\ plain (web_url cloud) = true
  /\ exists prefixes,
       location_prefixes (default_conf (api_url cloud) (web_url cloud))
       = Some prefixes
       /\ prefixes = ["/api/"; "/"]
       /\ ProxyConfig_invariant prefixes.
Proof.
  assert (H : In (default_conf (api_url cloud) (web_url cloud))
                (synthesized (effects (run ["deploy"] cloud))))
    by (vm_compute; left; reflexivity).
  split; [exact H | ].
  split; [reflexivity | ].
  split; [reflexivity | ].
  exact (emitted_configuration_keeps_the_invariant None ["deploy"] cloud _
           H eq_refl eq_refl).
Defined.

(** C5, as stated, fails.  In the world [spliced] every stage of a deploy
    run succeeds and the address shown for the web service is
    [http://b; } location /late { proxy_pass http://c].  The run exits
    with 0 and writes one [default.conf]; nginx reads three location
    blocks from it, [/api/], [/] and [/late]: the root is not the last
    block. *)
Lemma spliced_address_breaks_the_invariant :
  exit_code (run ["deploy"] spliced) = 0
  /\ synthesized (effects (run ["deploy"] spliced))
     = [default_conf (api_url spliced) (web_url spliced)]
  /\ location_prefixes (default_conf (api_url spliced) (web_url spliced))
     = Some ["/api/"; "/"; "/late"]
  /\ ~ ProxyConfig_invariant ["/api/"; "/"; "/late"].
Proof.
  split; [reflexivity | ].
  split; [reflexivity | ].
  split; [reflexivity | ].
  intros (_ & _ & Hlast). discriminate Hlast.
Qed.


End Document.

(** ** The prediction form *)

Section Form.
Import Page.
Local Open Scope Z_scope.

(** C9.  Whatever the state of the form, and so whatever [rainTomorrow]
    holds, the payload has [RainTomorrow] equal to 0, and the body sent to
    [/api/predict] starts with that member. *)
Theorem RainTomorrow_is_always_zero (st : State) :
  RainTomorrow (payload st) = Num 0
  /\ exists rest,
       JSON_stringify (payload st)
       = ("{" ++ quote ++ "RainTomorrow" ++ quote ++ ":0," ++ rest)%string.
Proof.
  split.
  - unfold payload; simpl. destruct (rainTomorrow st); reflexivity.
  - unfold JSON_stringify, payload; simpl RainTomorrow.
    destruct (rainTomorrow st); eexists; reflexivity.
Qed.

(** The clamp works on every value that [parseInt] reads a number from. *)
Lemma clamped_parsed hi value z :
  0 <= hi ->
  parseInt (or_else value "0") = Num z ->
  in_range 0 hi (clamped hi value).
Proof.
  intros Hhi Hz. unfold clamped. rewrite Hz. simpl. lia.
Qed.

(** It lets [NaN] through. *)
Lemma clamped_NaN hi value :
  parseInt (or_else value "0") = NaN -> clamped hi value = NaN.
Proof. intros Hz. unfold clamped. rewrite Hz. reflexivity. Qed.

Lemma clamped_NaN_or_in_range hi value :
  0 <= hi -> NaN_or_in_range hi (clamped hi value).
Proof.
  intros Hhi. destruct (parseInt (or_else value "0")) as [ | z] eqn:Hz.
  - left. apply clamped_NaN; assumption.
  - right. eapply clamped_parsed; eassumption.
Qed.

(** After any sequence of change events, each numeric field of the payload
    is within its range or is [NaN]. *)
Lemma payload_fields_NaN_or_in_range (es : list Change) :
  let p := payload (after es) in
  NaN_or_in_range 371 (Rainfall p) /\ NaN_or_in_range 45 (Humidity3pm p)
  /\ NaN_or_in_range 8 (Cloud3pm p) /\ NaN_or_in_range 17 (Sunshine p).
Proof.
  unfold after. simpl.
  assert (H0 : NaN_or_in_range 371 (rainfall initial)
               /\ NaN_or_in_range 45 (humidity3pm initial)
               /\ NaN_or_in_range 8 (cloud3pm initial)
               /\ NaN_or_in_range 17 (sunshine initial)).
  { unfold NaN_or_in_range; simpl. repeat split; right; lia. }
  revert H0. generalize initial.
  induction es as [ | e es IH]; intros st Hst; simpl; [exact Hst | ].
  apply IH. destruct Hst as (H1 & H2 & H3 & H4).
  destruct e; simpl; repeat split; auto;
    apply clamped_NaN_or_in_range; lia.
Qed.

(** C10, at the failing input.  A change event on the Rainfall input with
    the value [.5] stores [NaN]: [parseInt] reads no digit before the
    point, and [Math.min] and [Math.max] hand [NaN] on.  The payload of
    the next submission has [Rainfall] outside of 0 to 371, and the body
    carries it as [null]. *)
Theorem Rainfall_escapes_its_range :
  parseInt ".5" = NaN
  /\ Rainfall (payload (after [RainfallInput ".5"])) = NaN
  /\ ~ in_range 0 371 (Rainfall (payload (after [RainfallInput ".5"])))
  /\ handleSubmit_body [RainfallInput ".5"]
     = ("{" ++ JSON_member "RainTomorrow" (Num 0)
        ++ "," ++ quote ++ "Rainfall" ++ quote ++ ":null,"
        ++ JSON_member "Humidity3pm" (Num 0) ++ ","
        ++ JSON_member "RainToday" (Num 0) ++ ","
        ++ JSON_member "Cloud3pm" (Num 0) ++ ","
        ++ JSON_member "Sunshine" (Num 0) ++ "}")%string.
Proof.
  split; [reflexivity | ]. split; [reflexivity | ].
  split; [ | reflexivity].
  simpl. tauto.
Qed.

End Form.

(** ** The main logic follows its plan *)

Section Plans.
Import Bash DeploySh Plan.
Local Open Scope sh_scope.

Variable sigint : option nat.

Lemma keeps_dir_run_step st : keeps_dir (run_step sigint st).
Proof.
  intros s a s'. destruct st; simpl;
    unfold echo, command, cat_to, errexit, tick, log, bind, ret, exit;
    try destruct (String.eqb value "");
    destruct (pending sigint s); simpl;
    try destruct (Nat.eqb status 0); simpl;
    intros H; inversion H; reflexivity.
Qed.

Lemma bind_cong {A B} (m : Sh A) (k k' : A -> Sh B) dir s :
  NGINX_BUILD_DIR s = Some dir ->
  keeps_dir m ->
  (forall a s', NGINX_BUILD_DIR s' = Some dir -> k a s' = k' a s') ->
  bind m k s = bind m k' s.
Proof.
  intros Hs Hm Hk. unfold bind.
  destruct (m s) as [[a | c] s'] eqn:E; [ | reflexivity].
  apply Hk. rewrite (Hm _ _ _ E). exact Hs.
Qed.

(** A captured command is the command, with its output handed on. *)
Lemma bind_capture {B} e r (k : string -> Sh B) s :
  bind (capture sigint e r) k s
  = bind (command sigint e (snd r)) (fun _ => k (fst r)) s.
Proof.
  unfold capture, command, errexit, tick, log, bind, ret, exit.
  destruct (pending sigint s); [reflexivity | ].
  destruct (Nat.eqb (snd r) 0); reflexivity.
Qed.

Lemma bind_read_NGINX_BUILD_DIR {B} (k : string -> Sh B) dir s :
  NGINX_BUILD_DIR s = Some dir -> bind read_NGINX_BUILD_DIR k s = k dir s.
Proof. intros H. unfold bind, read_NGINX_BUILD_DIR. rewrite H. reflexivity. Qed.

Ltac next_step :=
  first
    [ rewrite bind_capture
    | erewrite bind_read_NGINX_BUILD_DIR by eassumption ];
  cbv beta.

Ltac same_step dir :=
  match goal with
  | |- bind ?m ?k ?s = bind ?m' ?k' ?s =>
      apply (bind_cong m k k' dir s);
      [ assumption
      | first [ apply (keeps_dir_run_step (Say _))
              | apply (keeps_dir_run_step (Do _ _))
              | apply (keeps_dir_run_step (Write _ _ _))
              | apply (keeps_dir_run_step (Require _ _)) ]
      | let s' := fresh "s" in
        let H := fresh "Hdir" in
        clear dependent s; intros _ s' H; cbv beta ]
  end.

Lemma usage_plan w {A} (k : A -> Sh unit) s :
  bind (usage sigint w) k s = run_steps sigint 1 (usage_steps w) s.
Proof.
  unfold usage, usage_steps, run_steps, run_step, echo, tick, log, bind,
    ret, exit.
  destruct (pending sigint s); [reflexivity | ]. simpl.
  destruct (pending sigint _); [reflexivity | ]. simpl.
  destruct (pending sigint _); reflexivity.
Qed.

Lemma usage_alone w s :
  usage sigint w s = run_steps sigint 1 (usage_steps w) s.
Proof. reflexivity. Qed.

Lemma deploy_mode_plan w PROJECT_ID dir s :
  NGINX_BUILD_DIR s = Some dir ->
  deploy_mode sigint w PROJECT_ID s
  = run_steps sigint 0 (deploy_steps w PROJECT_ID dir) s.
Proof.
  intros Hdir.
  unfold deploy_mode, deploy_steps, service_steps, deploy_service,
    describe_service, nginx_url, api_url, web_url.
  cbv zeta. cbn [app run_steps].
  repeat first [ same_step dir | next_step ].
  reflexivity.
Qed.

Lemma main_logic_plan w args PROJECT_ID dir s :
  NGINX_BUILD_DIR s = Some dir ->
  main_logic sigint w args PROJECT_ID s
  = run_steps sigint (snd (main_plan args w PROJECT_ID dir))
      (fst (main_plan args w PROJECT_ID dir)) s.
Proof.
  intros Hdir. unfold main_logic, main_plan.
  destruct (negb (Nat.eqb (List.length args) 1)).
  - apply usage_plan.
  - cbv zeta. unfold bind at 1, ret.
    destruct (String.eqb (hd "" args) "local"); [reflexivity | ].
    destruct (String.eqb (hd "" args) "deploy").
    + apply deploy_mode_plan. assumption.
    + apply usage_alone.
Qed.

(** A list of steps run in the shell does what [plan_outcome] says: it
    exits with that code, having added those events to the trace and
    touched nothing else but the clock. *)
Lemma run_steps_outcome code l s :
  exists n,
    run_steps sigint code l s
    = (Exit (snd (plan_outcome sigint (clock s) code l)),
       {| clock := n;
          trace := trace s ++ fst (plan_outcome sigint (clock s) code l);
          NGINX_BUILD_DIR := NGINX_BUILD_DIR s;
          trap_EXIT := trap_EXIT s;
          tmpdirs := tmpdirs s |}).
Proof.
  revert s. induction l as [ | st l IH]; intros s.
  - exists (clock s). simpl. unfold exit. rewrite app_nil_r.
    destruct s; reflexivity.
  - assert (Hgo : forall e,
      exists n,
        run_steps sigint code l (logged e (bump s))
        = (Exit (snd (plan_outcome sigint (S (clock s)) code l)),
           {| clock := n;
              trace := trace s
                       ++ e :: fst (plan_outcome sigint (S (clock s)) code l);
              NGINX_BUILD_DIR := NGINX_BUILD_DIR s;
              trap_EXIT := trap_EXIT s;
              tmpdirs := tmpdirs s |})).
    { intros e. destruct (IH (logged e (bump s))) as [n Hn].
      exists n. rewrite Hn. simpl. rewrite <- app_assoc. reflexivity. }
    assert (Hstop : exists n,
      (Exit SIGINT_exit : Res unit, s)
      = (Exit SIGINT_exit,
         {| clock := n; trace := trace s ++ [];
            NGINX_BUILD_DIR := NGINX_BUILD_DIR s;
            trap_EXIT := trap_EXIT s; tmpdirs := tmpdirs s |})).
    { exists (clock s). rewrite app_nil_r. destruct s; reflexivity. }
    destruct st; cbn [run_steps run_step plan_outcome];
      unfold echo, command, cat_to, errexit, tick, log, bind, ret, exit;
      change (pending sigint s) with (due sigint (clock s)).
    + destruct (due sigint (clock s)); [exact Hstop | apply Hgo].
    + destruct (due sigint (clock s)); [exact Hstop | ].
      destruct (Nat.eqb status 0); [apply Hgo | ].
      eexists. reflexivity.
    + destruct (due sigint (clock s)); [exact Hstop | apply Hgo].
    + destruct (String.eqb value ""); [ | apply IH].
      cbv beta iota. change (pending sigint s) with (due sigint (clock s)).
      destruct (due sigint (clock s)); [exact Hstop | ].
      eexists. reflexivity.
Qed.

(** With a project set, a directory made and no interrupt due in the
    first three commands, the main logic starts under the trap at clock
    3. *)
Lemma configuration_passed w :
  project w <> "" -> snd (mktemp_d w) = 0 ->
  due sigint 0 = false -> due sigint 1 = false -> due sigint 2 = false ->
  configuration sigint w boot =
    (Ret (project w),
     {| clock := 3;
        trace := [GcloudConfigGetValueProject; MktempD];
        NGINX_BUILD_DIR := Some (fst (mktemp_d w));
        trap_EXIT := true; tmpdirs := [fst (mktemp_d w)] |}).
Proof.
  unfold project, configuration, capture_or_echo_empty,
    mktemp_into_NGINX_BUILD_DIR, trap_cleanup_EXIT, errexit, echo, tick, log,
    bind, ret, exit, pending, due; simpl.
  intros Hp%String.eqb_neq -> H0 H1 H2.
  destruct sigint as [k | ]; simpl;
    repeat (first [rewrite H0 | rewrite H1 | rewrite H2 | rewrite Hp];
            simpl);
    reflexivity.
Qed.

(** The whole run, once the configuration part is through: the two
    configuration commands, what the plan of the branch does from clock 3,
    and the cleanup. *)
Lemma exec_plan args w :
  project w <> "" -> snd (mktemp_d w) = 0 ->
  due sigint 0 = false -> due sigint 1 = false -> due sigint 2 = false ->
  let plan := main_plan args w (project w) (fst (mktemp_d w)) in
  let po := plan_outcome sigint 3 (snd plan) (fst plan) in
  exec sigint args w =
    {| exit_code := snd po;
       effects := GcloudConfigGetValueProject :: MktempD
                  :: fst po ++ [RmRf (fst (mktemp_d w))];
       leftover := [] |}.
Proof.
  intros Hp Hm H0 H1 H2 plan po.
  unfold exec, deploy_sh, bind.
  rewrite (configuration_passed w Hp Hm H0 H1 H2).
  rewrite (main_logic_plan w args (project w) (fst (mktemp_d w)))
    by reflexivity.
  fold plan.
  destruct (run_steps_outcome (snd plan) (fst plan)
              {| clock := 3;
                 trace := [GcloudConfigGetValueProject; MktempD];
                 NGINX_BUILD_DIR := Some (fst (mktemp_d w));
                 trap_EXIT := true; tmpdirs := [fst (mktemp_d w)] |})
    as [n Hn].
  rewrite Hn. unfold finish, at_exit; simpl.
  rewrite String.eqb_refl. reflexivity.
Qed.

End Plans.

(** ** What a plan does *)

Section PlanOutcomes.
Import Bash DeploySh Plan.

(** With no interrupt the clock plays no part. *)
Lemma plan_outcome_clock clock clock' code l :
  plan_outcome None clock code l = plan_outcome None clock' code l.
Proof.
  revert clock clock'. induction l as [ | st l IH]; intros c c';
    [reflexivity | ].
  destruct st; cbn [plan_outcome due]; cbv zeta;
    rewrite ?(IH (S c) (S c')), ?(IH c c'); reflexivity.
Qed.


(** A plan ends with the code of its final [exit] exactly when every step
    passes, provided no command can fail with that very code. *)
Lemma plan_outcome_code clock l :
  snd (plan_outcome None clock 0 l) = 0 <-> Forall passes l.
Proof.
  revert clock. induction l as [ | st l IH]; intros c.
  - split; [constructor | reflexivity].
  - destruct st; cbn [plan_outcome due]; cbv zeta; cbn [snd].
    + rewrite IH. split; [constructor; [exact I | assumption] | ].
      intros H; inversion H; assumption.
    + destruct (Nat.eqb_spec status 0) as [-> | Hne]; cbn [snd].
      * rewrite IH. split; [constructor; [reflexivity | assumption] | ].
        intros H; inversion H; assumption.
      * split; [contradiction | ].
        intros H; inversion H; contradiction.
    + rewrite IH. split; [constructor; [exact I | assumption] | ].
      intros H; inversion H; assumption.
    + destruct (String.eqb_spec value "") as [-> | Hne]; cbn [snd].
      * split; [discriminate | ].
        intros H; inversion H as [ | ? ? Hp]; contradiction Hp; reflexivity.
      * rewrite IH. split; [constructor; assumption | ].
        intros H; inversion H; assumption.
Qed.

(** What holds of the event of every step holds of every event of a
    run of the plan. *)
Lemma plan_outcome_Forall (P : Event -> Prop) sigint clock code l :
  Forall (fun st => P (step_event st)) l ->
  Forall P (fst (plan_outcome sigint clock code l)).
Proof.
  intros Hl. revert clock.
  induction Hl as [ | st l Hst Hl IH]; intros c; [constructor | ].
  destruct st; cbn [plan_outcome]; cbv zeta; simpl in Hst;
    try destruct (String.eqb value "");
    destruct (due sigint c); cbn [fst];
    try destruct (Nat.eqb status 0); cbn [fst];
    repeat constructor; auto.
Qed.

Lemma plan_outcome_passes clock code l :
  Forall passes l -> plan_outcome None clock code l = (events_of l, code).
Proof.
  intros Hl. revert clock.
  induction Hl as [ | st l Hst Hl IH]; intros c; [reflexivity | ].
  destruct st; cbn [plan_outcome due events_of step_event]; cbv zeta;
    simpl in Hst.
  - rewrite IH. reflexivity.
  - rewrite Hst, IH. reflexivity.
  - rewrite IH. reflexivity.
  - apply String.eqb_neq in Hst. rewrite Hst. apply IH.
Qed.

Lemma plan_outcome_in_order sigint clock code l seen :
  steps_in_order seen l ->
  in_order seen (fst (plan_outcome sigint clock code l)).
Proof.
  revert clock seen. induction l as [ | st l IH]; intros c seen Hl;
    [exact I | ].
  destruct st; cbn [plan_outcome]; cbv zeta; simpl in Hl;
    try destruct (String.eqb value "");
    destruct (due sigint c); cbn [fst in_order];
    try destruct (Nat.eqb status 0); cbn [fst in_order];
    try exact I; try (split; [exact I | ]); try tauto;
    try (apply IH; assumption).
  split; [apply Hl | apply IH; apply Hl].
Qed.

Lemma in_order_snoc seen t e :
  (forall seen', allowed seen' e) -> in_order seen t ->
  in_order seen (t ++ [e]).
Proof.
  intros He. revert seen. induction t as [ | x t IH]; intros seen; simpl.
  - intros _. split; [apply He | exact I].
  - intros [Hx Ht]. split; [assumption | apply IH; assumption].
Qed.

End PlanOutcomes.

(** ** Whole runs of deploy.sh *)

Section WholeRuns.
Import Bash DeploySh Plan.


(** The configuration part returns only when a project is set, the
    directory is made and no interrupt was due in its three commands. *)
Lemma configuration_returns sigint w p s :
  configuration sigint w boot = (Ret p, s) ->
  project w <> "" /\ snd (mktemp_d w) = 0
  /\ due sigint 0 = false /\ due sigint 1 = false /\ due sigint 2 = false.
Proof.
  unfold configuration, capture_or_echo_empty, mktemp_into_NGINX_BUILD_DIR,
    trap_cleanup_EXIT, echo, errexit, tick, log, bind, ret, exit, pending,
    project, due.
  destruct sigint as [[ | [ | [ | k]]] | ]; simpl;
    destruct (String.eqb_spec (fst (gcloud_config_get_value_project w)) "");
    simpl;
    try destruct (Nat.eqb_spec (snd (mktemp_d w)) 0); simpl;
    intros H; try discriminate H; repeat split; auto.
Qed.

(** Every run is of one of two kinds: it ends in the configuration part,
    with a code that is not 0 and one of [early_traces] for its effects, or
    it goes through it and follows its plan. *)
Lemma exec_kinds sigint args w :
  (exit_code (exec sigint args w) <> 0
   /\ In (effects (exec sigint args w)) early_traces)
  \/ (project w <> "" /\ snd (mktemp_d w) = 0
      /\ due sigint 0 = false /\ due sigint 1 = false
      /\ due sigint 2 = false).
Proof.
  destruct (configuration sigint w boot) as [[p | c] s] eqn:E.
  - right. eapply configuration_returns; eassumption.
  - left. pose proof (configuration_boot sigint w) as H. rewrite E in H.
    destruct H as (Hc & Htrap & Ht & _).
    unfold exec, deploy_sh, bind. rewrite E.
    unfold finish, at_exit; simpl. rewrite Htrap. auto.
Qed.

(** What holds of the events of the configuration part, of the events of
    every step of the branch and of the cleanup holds of every event of
    the run. *)
Lemma exec_Forall (P : Event -> Prop) sigint args w :
  P GcloudConfigGetValueProject -> P MktempD -> P config_error ->
  (project w <> "" -> snd (mktemp_d w) = 0 ->
   P (RmRf (fst (mktemp_d w)))
   /\ Forall (fun st => P (step_event st))
        (fst (main_plan args w (project w) (fst (mktemp_d w))))) ->
  Forall P (effects (exec sigint args w)).
Proof.
  intros HG HM HE Hplan.
  destruct (exec_kinds sigint args w)
    as [[_ Ht] | (Hp & Hm & H0 & H1 & H2)].
  - unfold early_traces, In in Ht.
    destruct Ht as [<- | [<- | [<- | [<- | []]]]]; repeat constructor; auto.
  - rewrite (exec_plan sigint args w Hp Hm H0 H1 H2). cbv zeta. simpl.
    destruct (Hplan Hp Hm) as [Hrm Hsteps].
    constructor; [assumption | ]. constructor; [assumption | ].
    apply Forall_app. split.
    + apply plan_outcome_Forall. assumption.
    + constructor; [assumption | constructor].
Qed.



(** X2.  A deploy run that nothing interrupts exits with 0 exactly when
    every stage goes well: a project is set, the directory is made, each of
    the three images is built and pushed, each service is deployed and
    described, and each of the three addresses is not empty. *)
Theorem deploy_exits_zero_iff_all_stages_succeed w :
  exit_code (run ["deploy"] w) = 0 <-> all_stages_succeed w.
Proof.
  assert (Hready : project w <> "" -> snd (mktemp_d w) = 0 ->
            (exit_code (run ["deploy"] w) = 0 <-> all_stages_succeed w)).
  { intros Hp Hm. unfold run.
    rewrite (exec_plan None ["deploy"] w Hp Hm) by reflexivity.
    cbv zeta. cbn [exit_code].
    change (main_plan ["deploy"] w (project w) (fst (mktemp_d w)))
      with (deploy_steps w (project w) (fst (mktemp_d w)), 0).
    cbn [fst snd]. rewrite plan_outcome_code.
    rewrite Forall_fold_right.
    unfold deploy_steps, service_steps. cbv zeta.
    cbn [app fold_right passes].
    unfold all_stages_succeed, nginx_url. cbv zeta. tauto. }
  split.
  - intros Hc.
    destruct (exec_kinds None ["deploy"] w) as [[Hne _] | (Hp & Hm & _)];
      [contradiction | ].
    apply Hready; assumption.
  - intros Hall. pose proof Hall as (Hp & Hm & _).
    apply Hready; assumption.
Qed.



(** X4.  Every run, whatever its arguments, its world and its interrupt,
    keeps the order of the pipeline: an image is pushed only after it was
    built, a service is deployed only from an image that was pushed, its
    address is asked for only after it was deployed, and the nginx image is
    built only after [default.conf] and [Dockerfile] were written to its
    build directory. *)
Theorem every_run_keeps_the_order sigint args w :
  in_order nothing_seen (effects (exec sigint args w)).
Proof.
  destruct (exec_kinds sigint args w)
    as [[_ Ht] | (Hp & Hm & H0 & H1 & H2)].
  - unfold early_traces, In in Ht.
    destruct Ht as [<- | [<- | [<- | [<- | []]]]]; simpl; tauto.
  - rewrite (exec_plan sigint args w Hp Hm H0 H1 H2). cbv zeta.
    cbn [effects in_order allowed see].
    split; [exact I | ]. split; [exact I | ].
    apply in_order_snoc; [intros seen; exact I | ].
    apply plan_outcome_in_order.
    unfold main_plan.
    destruct (negb (Nat.eqb (List.length args) 1)); [simpl; tauto | ].
    cbv zeta.
    destruct (String.eqb (hd "" args) "local"); [simpl; tauto | ].
    destruct (String.eqb (hd "" args) "deploy"); [ | simpl; tauto].
    cbn [fst]. unfold deploy_steps, service_steps. cbv zeta.
    cbn [app steps_in_order allowed see nothing_seen built pushed deployed
         written In].
    tauto.
Qed.

Example out_of_order_is_seen :
  ~ in_order nothing_seen
      [DockerBuild "i" "./api"; GcloudRunDeploy "api" "i" "r"].
Proof. simpl. tauto. Qed.

(** X5.  When every stage goes well, a deploy run that nothing interrupts
    exits with 0, writes [default.conf] once, for the two resolved
    addresses, ends its output with the address of the nginx service and
    the two routes, and removes the directory last. *)
Theorem successful_deploy_reports_the_proxy w :
  all_stages_succeed w ->
  let o := run ["deploy"] w in
  exit_code o = 0
  /\ synthesized (effects o) = [default_conf (api_url w) (web_url w)]
  /\ (exists before,
        effects o =
          before
          ++ [ Echo "✅ Deployment complete!";
               Echo "Your application is now available at:";
               Echo "";
               Echo ("    🔗  " ++ nginx_url w);
               Echo "";
               Echo ("Requests to /api/ will be forwarded to " ++ api_url w);
               Echo ("All other requests will be forwarded to " ++ web_url w);
               Echo "";
               RmRf (fst (mktemp_d w)) ])%list
  /\ leftover o = [].
Proof.
  intros Hall o. subst o.
  pose proof Hall as (Hp & Hm & _).
  assert (Hpass : Forall passes (deploy_steps w (project w) (fst (mktemp_d w)))).
  { rewrite Forall_fold_right.
    unfold deploy_steps, service_steps. cbv zeta.
    cbn [app fold_right passes].
    unfold all_stages_succeed, nginx_url in *. cbv zeta in Hall. tauto. }
  unfold run. rewrite (exec_plan None ["deploy"] w Hp Hm) by reflexivity.
  cbv zeta.
  change (main_plan ["deploy"] w (project w) (fst (mktemp_d w)))
    with (deploy_steps w (project w) (fst (mktemp_d w)), 0).
  cbn [fst snd]. rewrite (plan_outcome_passes 3 0 _ Hpass).
  cbn [fst snd exit_code effects leftover].
  split; [reflexivity | ]. split; [reflexivity | ]. split; [ | reflexivity].
  unfold deploy_steps, service_steps. cbv zeta.
  cbn [app events_of step_event].
  match goal with
  | |- exists before, ?L = (before ++ ?T)%list =>
      exists (firstn (List.length L - List.length T) L)
  end.
  reflexivity.
Qed.

Lemma successful_deploy_reports_the_proxy_witness :
  all_stages_succeed cloud
  /\ exit_code (run ["deploy"] cloud) = 0
  /\ synthesized (effects (run ["deploy"] cloud))
     = [default_conf (api_url cloud) (web_url cloud)].
Proof.
  assert (H : all_stages_succeed cloud).
  { unfold all_stages_succeed. cbv zeta.
    repeat split; try reflexivity; discriminate. }
  split; [exact H | ].
  destruct (successful_deploy_reports_the_proxy cloud H) as (H0 & H1 & _).
  split; assumption.
Defined.

(** X6.  In local mode, once the configuration part is through, the run
    is [docker-compose up] and nothing else of the pipeline; it exits with
    the status of [docker-compose up], and the directory [mktemp] made is
    removed unused. *)
Theorem local_mode_runs_compose_only w :
  project w <> "" -> snd (mktemp_d w) = 0 ->
  run ["local"] w =
    {| exit_code := docker_compose_up w;
       effects := [ GcloudConfigGetValueProject; MktempD;
                    Echo "👉 Running in local mode with docker-compose...";
                    DockerComposeUp; RmRf (fst (mktemp_d w)) ];
       leftover := [] |}.
Proof.
  intros Hp Hm. unfold run.
  rewrite (exec_plan None ["local"] w Hp Hm) by reflexivity.
  cbv zeta. cbn.
  destruct (Nat.eqb_spec (docker_compose_up w) 0) as [-> | _]; reflexivity.
Qed.

Lemma local_mode_runs_compose_only_witness :
  (project cloud <> "" /\ snd (mktemp_d cloud) = 0)
  /\ exit_code (run ["local"] cloud) = docker_compose_up cloud.
Proof.
  assert (H1 : project cloud <> "") by discriminate.
  assert (H2 : snd (mktemp_d cloud) = 0) by reflexivity.
  split; [auto | ].
  rewrite (local_mode_runs_compose_only cloud H1 H2). reflexivity.
Defined.

Lemma main_plan_Forall (P : Step -> Prop) args w PROJECT_ID dir :
  Forall P (usage_steps w) -> Forall P (local_steps w) ->
  Forall P (deploy_steps w PROJECT_ID dir) ->
  Forall P (fst (main_plan args w PROJECT_ID dir)).
Proof.
  intros Hu Hl Hd. unfold main_plan.
  destruct (negb (Nat.eqb (List.length args) 1)); [exact Hu | ].
  cbv zeta. destruct (String.eqb (hd "" args) "local"); [exact Hl | ].
  destruct (String.eqb (hd "" args) "deploy"); assumption.
Qed.

(** X7.  No run removes or writes anything outside of its workspace: every
    [rm -rf] is on the directory [mktemp] made in this run, and every file
    written is [default.conf] or [Dockerfile] in that directory. *)
Theorem every_run_stays_within_its_workspace sigint args w :
  Forall (within_workspace w) (effects (exec sigint args w)).
Proof.
  apply exec_Forall; try exact I.
  intros Hp Hm. split; [split; [reflexivity | assumption] | ].
  apply main_plan_Forall.
  - repeat constructor.
  - repeat constructor.
  - unfold deploy_steps, service_steps. cbv zeta. cbn [app].
    repeat (constructor; [cbn; auto | ]). constructor.
Qed.

(** X8.  Every run works in one project and one region: each image built
    or pushed is [gcr.io/PROJECT/NAME] for the project gcloud is set to,
    each service is deployed from the image of its own name, and each Cloud
    Run call names [REGION], which is never empty: it is [us-central1]
    unless [CLOUD_RUN_REGION] is set to something else than the empty
    string. *)
Theorem every_run_stays_in_project_and_region sigint args w :
  Forall (in_project_and_region w) (effects (exec sigint args w))
  /\ REGION w <> ""
  /\ (REGION w = "us-central1" \/ CLOUD_RUN_REGION w = Some (REGION w)).
Proof.
  split.
  - apply exec_Forall; try exact I.
    intros Hp Hm. split; [exact I | ].
    apply main_plan_Forall.
    + repeat constructor.
    + repeat constructor.
    + unfold deploy_steps, service_steps, image_of. cbv zeta. cbn [app].
      repeat (constructor;
              [cbn; repeat split; auto;
               try (eexists; reflexivity) | ]).
      constructor.
  - unfold REGION. destruct (CLOUD_RUN_REGION w) as [r | ].
    + destruct (String.eqb_spec r ""); split; auto; discriminate.
    + split; [discriminate | left; reflexivity].
Qed.

(** A command of a plan that fails is the last event of the run of the
    plan, and its status is the exit code. *)
Lemma plan_outcome_failure w sigint clock code l e :
  Forall (fun st => match st with
                    | Do e' status => status = status_of w e'
                    | _ => True
                    end) l ->
  In e (fst (plan_outcome sigint clock code l)) ->
  status_of w e <> 0 ->
  exists t, fst (plan_outcome sigint clock code l) = (t ++ [e])%list
            /\ snd (plan_outcome sigint clock code l) = status_of w e.
Proof.
  intros Hl. revert clock.
  induction Hl as [ | st l Hst Hl IH]; intros c Hin He; [contradiction | ].
  assert (Hgo : forall e',
    status_of w e' = 0 ->
    In e (e' :: fst (plan_outcome sigint (S c) code l)) ->
    exists t, (e' :: fst (plan_outcome sigint (S c) code l)) = (t ++ [e])%list
              /\ snd (plan_outcome sigint (S c) code l) = status_of w e).
  { intros e' He' [<- | Hin']; [contradiction | ].
    destruct (IH (S c) Hin' He) as (t & Ht & Hc).
    exists (e' :: t). rewrite Ht. split; [reflexivity | assumption]. }
  destruct st; cbn [plan_outcome] in *; cbv zeta in *.
  - destruct (due sigint c); [contradiction | ].
    apply Hgo; [reflexivity | assumption].
  - destruct (due sigint c); [contradiction | ].
    destruct (Nat.eqb_spec status 0) as [H0 | Hne].
    + apply Hgo; [congruence | assumption].
    + cbn [fst snd] in *. destruct Hin as [<- | []].
      exists []. split; [reflexivity | assumption].
  - destruct (due sigint c); [contradiction | ].
    apply Hgo; [reflexivity | assumption].
  - destruct (String.eqb value ""); [ | apply IH; assumption].
    destruct (due sigint c); [contradiction | ].
    cbn [fst] in Hin. destruct Hin as [<- | []].
    contradiction He. reflexivity.
Qed.

(** X16.  A command that fails is the last thing a run does before it
    cleans up, and its status is the exit code of the run: whatever the
    arguments, the world and the interrupt, if [mktemp], [docker] or
    [gcloud run] has come back with a status that is not 0, nothing
    follows it in the effects but [rm -rf] of the directory. *)
Theorem failed_command_ends_the_run sigint args w e :
  In e (effects (exec sigint args w)) ->
  status_of w e <> 0 ->
  exit_code (exec sigint args w) = status_of w e
  /\ exists t,
       effects (exec sigint args w) = (t ++ [e])%list
       \/ effects (exec sigint args w)
          = (t ++ [e; RmRf (fst (mktemp_d w))])%list.
Proof.
  intros Hin He.
  destruct (configuration sigint w boot) as [[p | c] s] eqn:E.
  - destruct (configuration_returns sigint w p s E)
      as (Hp & Hm & H0 & H1 & H2).
    revert Hin. rewrite (exec_plan sigint args w Hp Hm H0 H1 H2). cbv zeta.
    cbn [effects exit_code]. intros Hin.
    set (plan := main_plan args w (project w) (fst (mktemp_d w))) in *.
    assert (Hin' : In e (fst (plan_outcome sigint 3 (snd plan) (fst plan)))).
    { destruct Hin as [<- | [<- | Hin]];
        [contradiction He; reflexivity | contradiction | ].
      apply in_app_or in Hin as [Hin | [<- | []]];
        [assumption | contradiction He; reflexivity]. }
    destruct (plan_outcome_failure w sigint 3 (snd plan) (fst plan) e)
      as (t & Ht & Hc); try assumption.
    { subst plan. apply main_plan_Forall; repeat constructor. }
    split; [assumption | ].
    exists (GcloudConfigGetValueProject :: MktempD :: t). right.
    rewrite Ht. cbn. rewrite <- app_assoc. reflexivity.
  - (* the run ends in the configuration part *)
    revert Hin E.
    unfold exec, deploy_sh, bind, configuration, capture_or_echo_empty,
      mktemp_into_NGINX_BUILD_DIR, trap_cleanup_EXIT, echo, errexit, tick,
      log, bind, ret, exit, pending, project.
    destruct sigint as [[ | [ | [ | k]]] | ]; simpl;
      destruct (String.eqb (fst (gcloud_config_get_value_project w)) "");
      simpl;
      try destruct (Nat.eqb_spec (snd (mktemp_d w)) 0); simpl;
      intros Hin E; try discriminate E;
      repeat match goal with
             | H : _ \/ _ |- _ => destruct H as [<- | H]
             | H : False |- _ => contradiction H
             end;
      try (contradiction He; reflexivity);
      try (simpl in He; contradiction);
      (split; [reflexivity | ]);
      exists [GcloudConfigGetValueProject]; left; reflexivity.
Qed.

Lemma failed_command_ends_the_run_witness :
  (In (DockerBuild "gcr.io/demo/web" "./web")
      (effects (exec (Some 40) ["deploy"] web_build_fails))
   /\ status_of web_build_fails (DockerBuild "gcr.io/demo/web" "./web") <> 0)
  /\ exit_code (exec (Some 40) ["deploy"] web_build_fails) = 2.
Proof.
  assert (H1 : In (DockerBuild "gcr.io/demo/web" "./web")
                 (effects (exec (Some 40) ["deploy"] web_build_fails))).
  { vm_compute. tauto. }
  assert (H2 : status_of web_build_fails
                 (DockerBuild "gcr.io/demo/web" "./web") <> 0)
    by discriminate.
  split; [auto | ].
  exact (proj1 (failed_command_ends_the_run (Some 40) ["deploy"]
                  web_build_fails _ H1 H2)).
Defined.

End WholeRuns.

(** ** handleSubmit *)

Section Submissions.
Import Page Submit.

Variable percent : option Json -> string.
Variable null_property_error : string.

Local Abbreviation attempt := (attempt percent null_property_error).
Local Abbreviation handleSubmit := (handleSubmit percent null_property_error).

(** X9.  However the request ends (rejected, answered with any status,
    with a body that parses or not), a submission ends with the loading
    flag off and a toast shown.  When something was thrown, its message is
    the inline error and the toast is that message after [Error: ];
    otherwise the inline error is empty.  What the page showed before the
    submission plays no part. *)
Theorem submission_always_settles (f : Fetched) (u : Ui) :
  let u' := handleSubmit f u in
  isLoading u' = false /\ showToast u' = true
  /\ match attempt f with
     | inl toast => toastMessage u' = toast /\ errorMsg u' = ""
     | inr message =>
         toastMessage u' = ("Error: " ++ message)%string
         /\ errorMsg u' = message
     end
  /\ forall v, handleSubmit f v = u'.
Proof.
  unfold Submit.handleSubmit, settled, submitting. cbv zeta.
  destruct (attempt f); simpl; repeat split; reflexivity.
Qed.

(** X10.  A response whose status is outside of 200 to 299 is reported as
    [API Error: STATUS TEXT], inline and in the toast, whatever its body
    holds: the body is not looked at. *)
Theorem failed_status_is_reported status statusText body u :
  status < 200 \/ 299 < status ->
  let u' := handleSubmit (Response status statusText body) u in
  errorMsg u'
  = ("API Error: " ++ NilZero.string_of_uint (Nat.to_uint status)
     ++ " " ++ statusText)%string
  /\ toastMessage u' = ("Error: " ++ errorMsg u')%string.
Proof.
  intros Hstatus. unfold Submit.handleSubmit, settled, Submit.attempt, ok.
  assert (Hok : ((200 <=? status) && (status <=? 299))%nat = false).
  { apply andb_false_iff.
    destruct Hstatus; [left; apply Nat.leb_gt | right; apply Nat.leb_gt];
      assumption. }
  rewrite Hok. simpl. split; reflexivity.
Qed.

(** X11.  A prediction is shown exactly when the response has a status
    from 200 to 299 and a body that is an object whose [prediction] member
    is an array; the number shown is the one of its first item.  A body
    that is [null] ends in the error path; every other body gives
    [Prediction data is not valid.] and no inline error. *)
Theorem prediction_is_shown_exactly_for_an_array f :
  (forall r, attempt f = inl ("Prediction: " ++ r ++ " mm")%string ->
     exists status statusText data items,
       f = Response status statusText (Parsed data)
       /\ ok status = true
       /\ prediction_of data = Value (JArray items))
  /\ (forall status statusText data items,
        ok status = true ->
        prediction_of data = Value (JArray items) ->
        attempt (Response status statusText (Parsed data))
        = inl ("Prediction: " ++ percent (hd_error items) ++ " mm")%string)
  /\ (forall status statusText,
        ok status = true ->
        attempt (Response status statusText (Parsed JNull))
        = inr null_property_error)
  /\ (forall status statusText data,
        ok status = true ->
        data <> JNull ->
        (forall items, prediction_of data <> Value (JArray items)) ->
        attempt (Response status statusText (Parsed data))
        = inl "Prediction data is not valid."%string).
Proof.
  split; [ | split; [ | split]].
  - intros r. destruct f as [m | status text [m | data]]; simpl;
      try discriminate.
    + destruct (ok status); discriminate.
    + destruct (ok status) eqn:Hok; simpl; [ | discriminate].
      destruct (prediction_of data) as [ | | [ | | | | items | ]] eqn:Hp;
        try discriminate.
      intros _. exists status, text, data, items. auto.
  - intros status text data items Hok Hp. simpl. rewrite Hok, Hp. reflexivity.
  - intros status text Hok. simpl. rewrite Hok. reflexivity.
  - intros status text data Hok Hnull Hnot. simpl. rewrite Hok. simpl.
    destruct (prediction_of data) as [ | | [ | | | | items | ]] eqn:Hp;
      try reflexivity.
    + destruct data; simpl in Hp; try discriminate; try contradiction.
      destruct (member "prediction" members); discriminate.
    + contradiction (Hnot items). reflexivity.
Qed.

End Submissions.

Lemma failed_status_is_reported_witness :
  (404 < 200 \/ 299 < 404)
  /\ Submit.errorMsg
       (Submit.handleSubmit (fun _ => "NaN"%string) "null has no properties"
          (Submit.Response 404 "Not Found" (Submit.Parsed Submit.JNull))
          {| Submit.toastMessage := ""; Submit.showToast := false;
             Submit.isLoading := false; Submit.errorMsg := "" |})
     = "API Error: 404 Not Found"%string.
Proof.
  assert (H : 404 < 200 \/ 299 < 404) by (right; lia).
  split; [exact H | ].
  destruct (failed_status_is_reported (fun _ => "NaN"%string)
              "null has no properties" 404 "Not Found"
              (Submit.Parsed Submit.JNull)
              {| Submit.toastMessage := ""; Submit.showToast := false;
                 Submit.isLoading := false; Submit.errorMsg := "" |} H)
    as [He _].
  rewrite He. reflexivity.
Defined.

(** ** The inputs of the form *)

Section FormInputs.
Import Page Inputs.
Local Open Scope Z_scope.

Lemma last_input_from {A} (pick : Change -> option A) es acc :
  fold_left (fun acc e => match pick e with Some v => Some v | None => acc end)
            es acc
  = match last_input pick es with Some v => Some v | None => acc end.
Proof.
  unfold last_input. revert acc.
  induction es as [ | e es IH]; intros acc; simpl; [reflexivity | ].
  rewrite (IH (match pick e with Some v => Some v | None => acc end)).
  rewrite (IH (match pick e with Some v => Some v | None => None end)).
  destruct (fold_left _ es None); [reflexivity | ].
  destruct (pick e); reflexivity.
Qed.

(** The state after a sequence of events, from any state: each field holds
    what its own last event put there, or what it held before. *)
Lemma fold_onChange es st :
  let st' := fold_left onChange es st in
  rainfall st' = match last_input rainfall_input es with
                 | Some v => clamped 371 v | None => rainfall st end
  /\ humidity3pm st' = match last_input humidity3pm_input es with
                       | Some v => clamped 45 v | None => humidity3pm st end
  /\ cloud3pm st' = match last_input cloud3pm_input es with
                    | Some v => clamped 8 v | None => cloud3pm st end
  /\ sunshine st' = match last_input sunshine_input es with
                    | Some v => clamped 17 v | None => sunshine st end
  /\ rainToday st' = match last_input rainToday_input es with
                     | Some b => b | None => rainToday st end
  /\ rainTomorrow st' = rainTomorrow st.
Proof.
  revert st. induction es as [ | e es IH]; intros st; cbv zeta.
  - simpl. repeat split; reflexivity.
  - cbn [fold_left]. specialize (IH (onChange st e)). cbv zeta in IH.
    destruct IH as (H1 & H2 & H3 & H4 & H5 & H6).
    rewrite H1, H2, H3, H4, H5, H6.
    unfold last_input. cbn [fold_left]. rewrite !last_input_from.
    destruct e; cbn;
      repeat split;
      repeat match goal with
             | |- context [last_input ?pick es] =>
                 destruct (last_input pick es)
             end;
      reflexivity.
Qed.

(** X12.  Each field of the payload depends on the last event of its own
    input only: a number field holds the clamped value of its last input
    (0 if there was none), [RainToday] is 1 or 0 as its checkbox was last
    set (0 if never), in whatever order the inputs were used and whatever
    was entered before; [rainTomorrow] stays [false]. *)
Theorem last_input_wins (es : list Change) :
  let p := payload (after es) in
  Rainfall p = stored 371 (last_input rainfall_input es)
  /\ Humidity3pm p = stored 45 (last_input humidity3pm_input es)
  /\ Cloud3pm p = stored 8 (last_input cloud3pm_input es)
  /\ Sunshine p = stored 17 (last_input sunshine_input es)
  /\ RainToday p
     = (if match last_input rainToday_input es with
           | Some b => b | None => false end
        then Num 1 else Num 0)
  /\ rainTomorrow (after es) = false.
Proof.
  cbv zeta. unfold after, payload, stored. cbn [Rainfall Humidity3pm Cloud3pm
    Sunshine RainToday].
  destruct (fold_onChange es initial) as (H1 & H2 & H3 & H4 & H5 & H6).
  rewrite H1, H2, H3, H4, H5, H6.
  repeat split;
    repeat match goal with
           | |- context [last_input ?pick es] =>
               destruct (last_input pick es)
           end;
    reflexivity.
Qed.

(** A decimal digit is a digit of base 10 for [parseInt]. *)
Lemma digit_value_decimal c :
  is_decimal c = true ->
  exists d, digit_value c = Some d /\ 0 <= d < 10.
Proof.
  unfold is_decimal, digit_value. cbv zeta.
  intros [Hlo Hhi]%andb_prop.
  apply Nat.leb_le in Hlo. apply Nat.leb_le in Hhi.
  assert (H : (48 <=? Z.of_nat (nat_of_ascii c))
              && (Z.of_nat (nat_of_ascii c) <=? 57) = true).
  { apply andb_true_intro. split; apply Z.leb_le; lia. }
  rewrite H. eexists. split; [reflexivity | lia].
Qed.

(** The digits are read up to the point or the exponent sign. *)
Lemma digits_decimal ds rest acc :
  all_decimal ds = true -> ends_integer_part rest ->
  digits 10 (ds ++ rest) acc = digits 10 ds acc.
Proof.
  intros Hds Hrest. revert acc.
  induction ds as [ | c ds IH]; intros acc.
  - simpl. destruct rest as [ | c rest]; [reflexivity | ].
    simpl in Hrest. destruct Hrest as [-> | [-> | ->]]; reflexivity.
  - simpl in Hds. apply andb_prop in Hds as [Hc Hds].
    destruct (digit_value_decimal c Hc) as (d & Hd & Hlt).
    cbn [append digits]. rewrite Hd.
    assert (Hd10 : (d <? 10) = true) by (apply Z.ltb_lt; lia).
    rewrite Hd10. apply IH. assumption.
Qed.

Lemma digits_nonnegative s acc :
  match acc with Some a => 0 <= a | None => True end ->
  match digits 10 s acc with Some n => 0 <= n | None => True end.
Proof.
  revert acc. induction s as [ | c s IH]; intros acc Hacc; [exact Hacc | ].
  cbn [digits]. destruct (digit_value c) as [d | ] eqn:Hd; [ | exact Hacc].
  destruct (Z.ltb_spec d 10); [ | exact Hacc].
  apply IH.
  assert (0 <= d).
  { unfold digit_value in Hd. cbv zeta in Hd.
    repeat match type of Hd with
           | (if ?b then _ else _) = _ => destruct b eqn:?
           end; try discriminate;
      injection Hd as <-;
      repeat match goal with
             | H : (_ && _) = true |- _ => apply andb_prop in H as [? ?]
             | H : (_ <=? _) = true |- _ => apply Z.leb_le in H
             end; lia. }
  destruct acc as [a | ]; lia.
Qed.

(** On a text that starts with a decimal digit, or with a minus sign and
    a decimal digit, [parseInt] is the sign times the digits of base 10. *)
Lemma parseInt_decimal c s :
  is_decimal c = true -> no_hex_prefix c s ->
  parseInt (String c s)
  = match digits 10 (String c s) None with
    | Some n => Num (1 * n)
    | None => NaN
    end
  /\ parseInt (String "-" (String c s))
     = match digits 10 (String c s) None with
       | Some n => Num (-1 * n)
       | None => NaN
       end.
Proof.
  intros Hc Hx.
  destruct c as [[] [] [] [] [] [] [] []]; try discriminate Hc;
    try (split; reflexivity).
  destruct s as [ | x s]; [split; reflexivity | ].
  simpl in Hx. destruct (Hx eq_refl) as [Hx1 Hx2].
  destruct x as [[] [] [] [] [] [] [] []];
    try (split; reflexivity);
    try (contradiction Hx1; reflexivity);
    try (contradiction Hx2; reflexivity).
Qed.

Lemma no_hex_prefix_decimal c ds rest :
  all_decimal ds = true -> ends_integer_part rest ->
  no_hex_prefix c (ds ++ rest).
Proof.
  intros Hds Hrest. destruct ds as [ | c2 ds]; simpl.
  - destruct rest as [ | x rest]; [exact I | ].
    simpl in Hrest. intros _.
    destruct Hrest as [-> | [-> | ->]]; split; discriminate.
  - intros _. simpl in Hds. apply andb_prop in Hds as [Hc2 _].
    split; intros ->; discriminate Hc2.
Qed.

(** X13.  Only the integer part of what is entered counts.  For a text
    made of decimal digits followed by nothing, by a fraction or by an
    exponent, the field stores what it stores for the digits alone: 12.9
    is stored as 12, and 1e3 as 1. *)
Theorem fraction_and_exponent_are_dropped hi ds rest :
  ds <> ""%string -> all_decimal ds = true -> ends_integer_part rest ->
  clamped hi (ds ++ rest) = clamped hi ds.
Proof.
  intros Hne Hds Hrest.
  destruct ds as [ | c ds]; [contradiction Hne; reflexivity | ].
  pose proof Hds as Hall. simpl in Hds. apply andb_prop in Hds as [Hc Hds].
  unfold clamped, or_else. cbn [append String.eqb].
  destruct (parseInt_decimal c (ds ++ rest) Hc
              (no_hex_prefix_decimal c ds rest Hds Hrest)) as [-> _].
  assert (Hnil : ends_integer_part "") by exact I.
  pose proof (no_hex_prefix_decimal c ds "" Hds Hnil) as Hx.
  assert (Hds0 : (ds ++ "")%string = ds).
  { clear. induction ds as [ | x ds IH]; simpl; [ | rewrite IH]; reflexivity. }
  rewrite Hds0 in Hx.
  destruct (parseInt_decimal c ds Hc Hx) as [-> _].
  change (String c (ds ++ rest)) with (String c ds ++ rest)%string.
  rewrite (digits_decimal (String c ds) rest None Hall Hrest). reflexivity.
Qed.

Lemma fraction_and_exponent_are_dropped_witness :
  ("12" <> "" /\ all_decimal "12" = true /\ ends_integer_part ".9")%string
  /\ clamped 371 "12.9" = Num 12.
Proof.
  assert (H1 : ("12" <> "")%string) by discriminate.
  assert (H2 : all_decimal "12" = true) by reflexivity.
  assert (H3 : ends_integer_part ".9") by (left; reflexivity).
  split; [auto | ].
  change "12.9"%string with ("12" ++ ".9")%string.
  rewrite (fraction_and_exponent_are_dropped 371 "12" ".9" H1 H2 H3).
  reflexivity.
Defined.

(** X14.  A negative number is stored as 0: for a minus sign followed by
    decimal digits and then nothing, a fraction or an exponent, every
    field holds 0, whatever its maximum. *)
Theorem negative_input_is_stored_as_zero hi ds rest :
  0 <= hi ->
  ds <> ""%string -> all_decimal ds = true -> ends_integer_part rest ->
  clamped hi ("-" ++ ds ++ rest) = Num 0.
Proof.
  intros Hhi Hne Hds Hrest.
  destruct ds as [ | c ds]; [contradiction Hne; reflexivity | ].
  pose proof Hds as Hall. simpl in Hds. apply andb_prop in Hds as [Hc Hds].
  unfold clamped, or_else. cbn [append String.eqb].
  destruct (parseInt_decimal c (ds ++ rest) Hc
              (no_hex_prefix_decimal c ds rest Hds Hrest)) as [_ ->].
  change (String c (ds ++ rest)) with (String c ds ++ rest)%string.
  rewrite (digits_decimal (String c ds) rest None Hall Hrest).
  pose proof (digits_nonnegative (String c ds) None Logic.I) as Hn.
  destruct (digits 10 (String c ds) None) as [n | ] eqn:Hdig.
  - unfold Math_min, Math_max. f_equal. lia.
  - exfalso. cbn [digits] in Hdig.
    destruct (digit_value_decimal c Hc) as (d & Hd & Hlt).
    rewrite Hd in Hdig.
    assert (Hd10 : (d <? 10) = true) by (apply Z.ltb_lt; lia).
    rewrite Hd10 in Hdig.
    clear - Hdig. revert Hdig. generalize (0 * 10 + d).
    induction ds as [ | x ds IH]; intros a; cbn [digits]; [discriminate | ].
    destruct (digit_value x) as [dx | ]; [ | discriminate].
    destruct (dx <? 10); [apply IH | discriminate].
Qed.

Lemma negative_input_is_stored_as_zero_witness :
  (0 <= 45 /\ "7" <> "" /\ all_decimal "7" = true
   /\ ends_integer_part ".5")%string
  /\ clamped 45 "-7.5" = Num 0.
Proof.
  assert (H0 : 0 <= 45) by lia.
  assert (H1 : ("7" <> "")%string) by discriminate.
  assert (H2 : all_decimal "7" = true) by reflexivity.
  assert (H3 : ends_integer_part ".5") by (left; reflexivity).
  split; [auto | ].
  exact (negative_input_is_stored_as_zero 45 "7" ".5" H0 H1 H2 H3).
Defined.

Lemma shown_reads_back z :
  0 <= z <= 371 -> parseInt (or_else (shown z) "0") = Num z.
Proof.
  intros Hz.
  assert (Hall : forallb reads_back (seq 0 372) = true) by (vm_compute; reflexivity).
  rewrite forallb_forall in Hall.
  specialize (Hall (Z.to_nat z)).
  unfold reads_back in Hall. rewrite Z2Nat.id in Hall by lia.
  destruct (parseInt (or_else (shown z) "0")) as [ | y].
  - discriminate Hall. apply in_seq. lia.
  - f_equal. apply Z.eqb_eq. apply Hall. apply in_seq. lia.
Qed.

(** X15.  What a field shows can be entered again without changing it:
    the decimal text of a stored number, handed to the field's handler,
    stores the same number.  So a field that holds a number holds a fixed
    point of its own handler. *)
Theorem shown_value_is_stable hi value z :
  0 <= hi <= 371 ->
  clamped hi value = Num z ->
  0 <= z <= hi /\ clamped hi (shown z) = Num z.
Proof.
  intros Hhi Hz.
  assert (Hrange : 0 <= z <= hi).
  { unfold clamped in Hz.
    destruct (parseInt (or_else value "0")) as [ | y]; [discriminate | ].
    simpl in Hz. injection Hz as <-. lia. }
  split; [assumption | ].
  unfold clamped. rewrite shown_reads_back by lia.
  simpl. f_equal. lia.
Qed.

Lemma shown_value_is_stable_witness :
  (0 <= 371 <= 371 /\ clamped 371 "400" = Num 371)
  /\ clamped 371 (shown 371) = Num 371.
Proof.
  assert (H1 : 0 <= 371 <= 371) by lia.
  assert (H2 : clamped 371 "400" = Num 371) by reflexivity.
  split; [auto | ].
  exact (proj2 (shown_value_is_stable 371 "400" 371 H1 H2)).
Defined.

End FormInputs.
